(** * StopHunterVS: liquidity zones and stop-hunt signals

    A shallow embedding of [StopHunter.py] (class [StopHunterVS]) and the
    properties of its analytical pipeline: zone identification, volume
    clustering, confidence scoring, trap detection and the market scan.

    Numbers.  The program computes on binary64 values through pandas and
    numpy.  Two embeddings of its methods are given.  The first keeps the
    values that change the control flow of the program (NaN and the two
    infinities) explicit and computes on finite values with exact rational
    arithmetic: the idealisation in which the formulas of the specification
    (the weighted mean, the equal-width bins) are written, and enough for
    the shape of the results, the state and the scan.  The second, module
    [B64], computes with the binary64 operations of the program; it carries
    the properties of the two trap tests, of the bins of the volume
    clustering and of the prices of a signal, which the rounding of a
    product or of an edge decides.  The columns of a fetched frame hold
    finite numbers.

    Libraries.  pandas, numpy and Python builtins are modelled after their
    documented behaviour; the data feed, [np.log] and scipy's
    [percentileofscore] are parameters of the analyzer. *)

From Stdlib Require Import Floats.
From Stdlib Require Import QArith Qround Qminmax Lqa Lia List.
From Stdlib Require Import Sorting.Mergesort Sorting.Permutation Sorting.Sorted.
From stdpp Require Import gmap strings.

#[local] Set Warnings "-inexact-float".
Local Open Scope Q_scope.

(** ** Python floats *)

Inductive float : Type :=
| Finite (q : Q)
| PInf
| NInf
| NaN.

Definition Qltb (a b : Q) : bool := negb (Qle_bool b a).

Definition is_nan (x : float) : bool :=
  match x with NaN => true | _ => false end.

Definition fopp (x : float) : float :=
  match x with
  | Finite q => Finite (- q)
  | PInf => NInf
  | NInf => PInf
  | NaN => NaN
  end.

Definition fadd (x y : float) : float :=
  match x, y with
  | NaN, _ | _, NaN => NaN
  | Finite a, Finite b => Finite (a + b)
  | PInf, NInf | NInf, PInf => NaN
  | PInf, _ | _, PInf => PInf
  | NInf, _ | _, NInf => NInf
  end.

Definition fsub (x y : float) : float := fadd x (fopp y).

(** An infinity of the sign of [q]; [inf * 0] is NaN. *)
Definition signed_inf (q : Q) (positive : bool) : float :=
  match Qcompare q 0 with
  | Eq => NaN
  | Gt => if positive then PInf else NInf
  | Lt => if positive then NInf else PInf
  end.

Definition fmul (x y : float) : float :=
  match x, y with
  | NaN, _ | _, NaN => NaN
  | Finite a, Finite b => Finite (a * b)
  | Finite a, PInf | PInf, Finite a => signed_inf a true
  | Finite a, NInf | NInf, Finite a => signed_inf a false
  | PInf, PInf | NInf, NInf => PInf
  | PInf, NInf | NInf, PInf => NInf
  end.

(** numpy division: a zero divisor gives NaN or an infinity (and a warning),
    never an exception. *)
Definition fdiv (x y : float) : float :=
  match x, y with
  | NaN, _ | _, NaN => NaN
  | Finite a, Finite b =>
      if Qeq_bool b 0 then signed_inf a true else Finite (a / b)
  | Finite _, (PInf | NInf) => Finite 0
  | PInf, Finite b => if Qltb b 0 then NInf else PInf
  | NInf, Finite b => if Qltb b 0 then PInf else NInf
  | (PInf | NInf), (PInf | NInf) => NaN
  end.

(** [x < y] and [x <= y]: every comparison with NaN is false. *)
Definition flt (x y : float) : bool :=
  match x, y with
  | NaN, _ | _, NaN => false
  | Finite a, Finite b => Qltb a b
  | NInf, (Finite _ | PInf) => true
  | Finite _, PInf => true
  | _, _ => false
  end.

Definition fle (x y : float) : bool :=
  match x, y with
  | NaN, _ | _, NaN => false
  | Finite a, Finite b => Qle_bool a b
  | NInf, _ => true
  | _, PInf => true
  | _, _ => false
  end.

(** Python's builtin [min(a, b)]: [b] when [b < a], else [a]. *)
Definition py_min (a b : float) : float := if flt b a then b else a.

(** Nearest integer, ties to the even one (numpy's [rint]). *)
Definition rint (x : Q) : Z :=
  let f := Qfloor x in
  match Qcompare (x - inject_Z f) (1 # 2) with
  | Lt => f
  | Gt => (f + 1)%Z
  | Eq => if Z.even f then f else (f + 1)%Z
  end.

(** [round(x, 2)] on a numpy scalar: scale by 100, [rint], scale back, here
    on the exact value ([B64.round2] rounds the binary64 product). *)
Definition round2q (x : Q) : Q := Qmake (rint (x * 100)) 100.

Definition round2 (x : float) : float :=
  match x with
  | Finite q => Finite (round2q q)
  | other => other
  end.

(** ** Exceptions *)

Inductive exn : Type := IndexError | ValueError.

Inductive result (A : Type) : Type :=
| Ok (a : A)
| Raise (e : exn).
Arguments Ok {A} a.
Arguments Raise {A} e.

Definition rbind {A B} (r : result A) (k : A -> result B) : result B :=
  match r with
  | Ok a => k a
  | Raise e => Raise e
  end.

(** ** Frames and series *)

Record Bar : Type := mkBar {
  Open : Q;
  High : Q;
  Low : Q;
  Close : Q;
  Volume : Q
}.

Definition DataFrame : Type := list Bar.

Definition series_sum (s : list Q) : Q := fold_left Qplus s 0.

(** [Series.min()] and [Series.max()]: NaN on an empty series. *)
Definition series_min (s : list Q) : float :=
  match s with
  | [] => NaN
  | x :: r => Finite (fold_left Qmin r x)
  end.

Definition series_max (s : list Q) : float :=
  match s with
  | [] => NaN
  | x :: r => Finite (fold_left Qmax r x)
  end.

Definition Qnat (n : nat) : Q := inject_Z (Z.of_nat n).

Definition series_mean (s : list Q) : float :=
  fdiv (Finite (series_sum s)) (Finite (Qnat (length s))).

(** [s.iloc[-1]]: the last element, [IndexError] on an empty series. *)
Definition iloc_last {A} (s : list A) : result A :=
  match last s with
  | Some x => Ok x
  | None => Raise IndexError
  end.

(** [Series.diff()]: the first entry is NaN. *)
Fixpoint diff_from (prev : float) (s : list float) : list float :=
  match s with
  | [] => []
  | x :: r => fsub x prev :: diff_from x r
  end.

Definition series_diff (s : list float) : list float :=
  match s with
  | [] => []
  | x :: r => NaN :: diff_from x r
  end.

(** ** numpy *)

(** [np.linspace(start, stop, num)]: [num] samples, [start + i * step] with
    [step = (stop - start) / (num - 1)], the last one set to [stop]. *)
Definition np_linspace (start stop : float) (num : nat) : list float :=
  match num with
  | O => []
  | 1%nat => [start]
  | S div =>
      let step := fdiv (fsub stop start) (Finite (Qnat div)) in
      map (fun i => fadd (fmul (Finite (Qnat i)) step) start) (seq 0 div)
        ++ [stop]
  end.

(** The check of [np.histogram] on an array of edges: it raises when some
    edge is greater than the next one; equal edges pass. *)
Fixpoint monotonic (bins : list float) : bool :=
  match bins with
  | x :: (y :: _) as r => negb (flt y x) && monotonic r
  | _ => true
  end.

(** Bin [i] is [[bins[i], bins[i+1])], the last bin is closed on the right. *)
Definition in_bin (bins : list float) (i : nat) (x : Q) : bool :=
  match bins !! i, bins !! S i with
  | Some lo, Some hi =>
      fle lo (Finite x)
      && (if Nat.eqb (S (S i)) (length bins) then fle (Finite x) hi
          else flt (Finite x) hi)
  | _, _ => false
  end.

Definition weight_in (a weights : list Q) (p : Q -> bool) : Q :=
  series_sum (map snd (List.filter (fun aw => p (fst aw)) (combine a weights))).

(** [np.histogram(a, bins=bins, weights=weights)] for an array of edges:
    the summed weight of the values of each bin, and the edges. *)
Definition np_histogram (a : list Q) (bins : list float) (weights : list Q)
  : result (list Q * list float) :=
  if monotonic bins then
    Ok (map (fun i => weight_in a weights (in_bin bins i))
          (seq 0 (length bins - 1)),
        bins)
  else Raise ValueError.

Module ByValue <: Orders.TotalLeBool.
Definition t : Type := (Q * nat)%type.
Definition leb (x y : t) : bool := Qle_bool (fst x) (fst y).
Lemma leb_total (x y : t) : leb x y = true \/ leb y x = true.
Proof.
  unfold leb. destruct (Qlt_le_dec (fst y) (fst x)) as [Hlt | Hle].
  - right. apply Qle_bool_iff, Qlt_le_weak, Hlt.
  - left. apply Qle_bool_iff, Hle.
Qed.
End ByValue.

Module ArgSort := Sort ByValue.

(** [np.argsort(v)]: the indices that put [v] in ascending order.  numpy
    leaves the order of equal values open, and no property below depends on
    it; among equal values the model follows its merge sort, which is not
    the index order. *)
Definition np_argsort (v : list Q) : list nat :=
  map snd (ArgSort.sort (combine v (seq 0 (length v)))).

(** [xs[-n:]] *)
Definition last_n {A} (n : nat) (xs : list A) : list A :=
  skipn (length xs - n) xs.

(** [edges[indices]]: [IndexError] on an index out of range. *)
Fixpoint take_at {A} (xs : list A) (indices : list nat) : result (list A) :=
  match indices with
  | [] => Ok []
  | i :: r =>
      match xs !! i with
      | Some x => rbind (take_at xs r) (fun picked => Ok (x :: picked))
      | None => Raise IndexError
      end
  end.

(** ** External collaborators

    [yf.download] (an exception or a frame, possibly empty; the same request
    gets the same answer during a run), [np.log] on a price, and scipy's
    [percentileofscore(a, score)]. *)
Class Externals : Type := {
  yf_download : string -> string -> string -> result DataFrame;
  np_log : Q -> float;
  percentileofscore : list float -> float -> float
}.

(** ** The analyzer *)

Record LiquidityZone : Type := mkZone {
  recent_low : float;
  recent_high : float;
  high_volume_nodes : list float;
  vwap : float
}.

Inductive SignalType : Type := bear_trap | bull_trap.

Record Signal : Type := mkSignal {
  type : SignalType;
  entry : float;
  stop : float;
  target : float;
  confidence : float
}.

(** The instance: [self.liquidity_zones]. *)
Record StopHunterVS : Type := mkSelf {
  liquidity_zones : gmap string LiquidityZone
}.

(** Methods read and write [self] and may raise. *)
Definition M (A : Type) : Type := StopHunterVS -> result A * StopHunterVS.

Definition ret {A} (a : A) : M A := fun self => (Ok a, self).

Definition bind {A B} (m : M A) (k : A -> M B) : M B :=
  fun self =>
    match m self with
    | (Ok a, self') => k a self'
    | (Raise e, self') => (Raise e, self')
    end.

Definition lift {A} (r : result A) : M A := fun self => (r, self).

Definition set_zone (ticker : string) (z : LiquidityZone) : M unit :=
  fun self => (Ok tt, mkSelf (<[ticker := z]> (liquidity_zones self))).

Notation "x <- m ;; k" := (bind m (fun x => k))
  (at level 100, m at next level, right associativity).

Section Analyzer.
Context `{E : Externals}.

Definition get_data (ticker period interval : string) : option DataFrame :=
  match
    rbind (yf_download ticker period interval)
      (fun data => if data is [] then Raise ValueError else Ok data)
  with
  | Ok data => Some data
  | Raise _ => None
  end.

Definition _calculate_vwap (df : DataFrame) : float :=
  fdiv
    (Finite
       (series_sum
          (map (fun b => Volume b * (High b + Low b + Close b) / 3) df)))
    (Finite (series_sum (map Volume df))).

Definition _find_volume_clusters (df : DataFrame) : list float :=
  match
    rbind
      (np_histogram (map Close df)
         (np_linspace (series_min (map Low df)) (series_max (map High df)) 20)
         (map Volume df))
      (fun '(hist, edges) =>
         rbind (take_at edges (last_n 3 (np_argsort hist)))
           (fun picked => Ok (map round2 picked)))
  with
  | Ok nodes => nodes
  | Raise _ => []
  end.

(** Returns [None] for the empty dict [{}]. *)
Definition identify_liquidity_pools (ticker : string)
  : M (option LiquidityZone) :=
  match get_data ticker "20d" "1d" with
  | None => ret None
  | Some data =>
      let zone :=
        {| recent_low := series_min (map Low data);
           recent_high := series_max (map High data);
           high_volume_nodes := _find_volume_clusters data;
           vwap := _calculate_vwap data |} in
      _ <- set_zone ticker zone ;;
      ret (Some zone)
  end.

Definition _calculate_confidence (df : DataFrame) (direction : string)
  : result float :=
  let returns := series_diff (map (fun b => np_log (Close b)) df) in
  rbind (iloc_last returns) (fun latest =>
    if String.eqb direction "down" then
      Ok (fdiv (percentileofscore returns latest) (Finite 100))
    else
      Ok (fsub (Finite 1)
            (fdiv (percentileofscore returns latest) (Finite 100)))).

Definition bear_trap_fires (current : Bar) (lz : LiquidityZone)
    (intraday : DataFrame) : bool :=
  fle (Finite (Low current)) (fmul (recent_low lz) (Finite 1.005))
  && flt (recent_low lz) (Finite (Close current))
  && flt (fmul (series_mean (map Volume intraday)) (Finite 1.8))
       (Finite (Volume current)).

Definition bull_trap_fires (current : Bar) (lz : LiquidityZone)
    (intraday : DataFrame) : bool :=
  fle (fmul (recent_high lz) (Finite 0.995)) (Finite (High current))
  && flt (Finite (Close current)) (recent_high lz)
  && flt (fmul (series_mean (map Volume intraday)) (Finite 1.8))
       (Finite (Volume current)).

Definition detect_stop_hunt (ticker : string) : M (list Signal) :=
  match get_data ticker "1d" "5m" with
  | None => ret []
  | Some intraday =>
      lz <- identify_liquidity_pools ticker ;;
      match lz with
      | None => ret []
      | Some lz =>
          current <- lift (iloc_last intraday) ;;
          let signals := [] in
          signals <-
            (if bear_trap_fires current lz intraday then
               c <- lift (_calculate_confidence intraday "down") ;;
               ret (signals ++
                      [ {| type := bear_trap;
                           entry := round2 (Finite (Close current));
                           stop := round2 (fmul (recent_low lz) (Finite 0.995));
                           target := round2 (vwap lz);
                           confidence :=
                             py_min (Finite 90) (fmul c (Finite 100)) |} ])
             else ret signals) ;;
          signals <-
            (if bull_trap_fires current lz intraday then
               c <- lift (_calculate_confidence intraday "up") ;;
               ret (signals ++
                      [ {| type := bull_trap;
                           entry := round2 (Finite (Close current));
                           stop := round2 (fmul (recent_high lz) (Finite 1.005));
                           target := round2 (vwap lz);
                           confidence :=
                             py_min (Finite 90) (fmul c (Finite 100)) |} ])
             else ret signals) ;;
          ret signals
      end
  end.

Fixpoint scan_loop (tickers : list string)
    (results : gmap string (list Signal)) : M (gmap string (list Signal)) :=
  match tickers with
  | [] => ret results
  | ticker :: rest =>
      signals <- detect_stop_hunt ticker ;;
      scan_loop rest
        (if signals is [] then results else <[ticker := signals]> results)
  end.

Definition scan_market (tickers : list string)
  : M (gmap string (list Signal)) :=
  scan_loop tickers ∅.

End Analyzer.

(** ** A concrete environment

    scipy's [percentileofscore] (1.9 and later) with its defaults
    ([kind='rank'], [nan_policy='propagate']): NaN as soon as the sample or
    the score holds
    a NaN or the sample is empty, else
    [(left + right + (1 if left < right)) * 50 / n] where [left] counts the
    entries below the score and [right] those not above it.  Earlier
    versions skip the NaN test; both return a percentile or NaN. *)
Definition count_if (p : float -> bool) (a : list float) : nat :=
  length (List.filter p a).

Definition scipy_percentileofscore (a : list float) (score : float) : float :=
  if existsb is_nan a || is_nan score then NaN
  else
    match length a with
    | O => NaN
    | n =>
        let left := count_if (fun x => flt x score) a in
        let right := count_if (fun x => fle x score) a in
        Finite
          (Qnat (left + right + (if Nat.ltb left right then 1 else 0))
           * (50 / Qnat n))
    end.

(** A rational approximation of the natural logarithm, standing for
    [np.log] in closed examples: [ln q = k ln 2 + 2 atanh ((m-1)/(m+1))]
    with [q = m 2^k].  [log 0] is minus infinity, the logarithm of a
    negative number is NaN. *)
Fixpoint atanh_series (z zpow : Q) (k : positive) (terms : nat) : Q :=
  match terms with
  | O => 0
  | S n => zpow / inject_Z (Zpos k) + atanh_series z (zpow * z * z) (k + 2) n
  end.

Definition ln_approx (q : Q) : Q :=
  let k := (Z.log2 (Qnum q) - Z.log2 (Zpos (Qden q)))%Z in
  let m := Qred (q / (2 ^ k)) in
  let z := Qred ((m - 1) / (m + 1)) in
  Qred (inject_Z k * 0.6931471805599453 + 2 * atanh_series z z 1 6).

Definition log_model (q : Q) : float :=
  match Qcompare q 0 with
  | Gt => Finite (ln_approx q)
  | Eq => NInf
  | Lt => NaN
  end.

(** The windows of the scenarios: three daily bars, and an intraday series
    whose latest bar dips to the recent low on heavy volume. *)
Definition window_A : DataFrame :=
  [ mkBar 101 105 100 104 1000;
    mkBar 104 107 98 99 5000;
    mkBar 100 106 99 105 2000 ].

Definition intraday_B : DataFrame :=
  [ mkBar 101 102 100.5 101.5 3000;
    mkBar 101.5 101.8 99.2 99.5 6000;
    mkBar 99.5 99.6 98.3 99.0 15000 ].

Definition flat_window : DataFrame :=
  [ mkBar 50 50 50 50 700; mkBar 50 50 50 50 900 ].

Definition tight_window : DataFrame :=
  [ mkBar 100.005 100.006 100.004 100.005 1000 ].

(** Three bars within a fifth of a cent, closing in three different bins. *)
Definition pinched_window : DataFrame :=
  [ mkBar 100.005 100.006 100.004 100.0041 1000;
    mkBar 100.0041 100.006 100.004 100.005 2000;
    mkBar 100.005 100.006 100.004 100.0059 3000 ].

(** A bull-trap variant: the latest bar pokes at the recent high of the
    daily window and closes below it. *)
Definition window_bull : DataFrame :=
  [ mkBar 101 105 100 104 1000;
    mkBar 104 107.2 98 99 5000;
    mkBar 100 106 99 105 2000 ].

Definition intraday_bull : DataFrame :=
  [ mkBar 105 105.5 104.8 105.2 3000;
    mkBar 105.2 106.3 105.1 106.2 6000;
    mkBar 106.2 106.9 106.0 106.123 15000 ].

(** A narrow daily range, where one bar can spring both traps. *)
Definition narrow_window : DataFrame :=
  [ mkBar 100.1 100.5 100 100.2 4000 ].

Definition intraday_both : DataFrame :=
  [ mkBar 100.2 100.3 100.1 100.2 3000;
    mkBar 100.2 100.4 100.2 100.3 6000;
    mkBar 100.3 100.4 100.2 100.3 15000 ].

Definition frames_daily : list (string * DataFrame) :=
  [ ("A", window_A); ("B", window_A); ("BULL", window_bull);
    ("BOTH", narrow_window); ("FLAT", flat_window);
    ("TIGHT", tight_window); ("PINCH", pinched_window) ]%string.

Definition frames_intraday : list (string * DataFrame) :=
  [ ("A", window_A); ("B", intraday_B); ("BULL", intraday_bull);
    ("BOTH", intraday_both); ("FLAT", flat_window);
    ("TIGHT", tight_window); ("PINCH", pinched_window) ]%string.

Fixpoint frame_of (table : list (string * DataFrame)) (ticker : string)
  : DataFrame :=
  match table with
  | [] => []
  | (t, df) :: r => if String.eqb t ticker then df else frame_of r ticker
  end.

(** The feed of the scenarios: "DOWN" fails, an unknown ticker has no
    bars. *)
Definition scenario_download (ticker period interval : string)
  : result DataFrame :=
  if String.eqb ticker "DOWN" then Raise ValueError
  else
    Ok (frame_of
          (if String.eqb period "20d" then frames_daily else frames_intraday)
          ticker).

Definition scenario : Externals :=
  {| yf_download := scenario_download;
     np_log := log_model;
     percentileofscore := scipy_percentileofscore |}.

Definition fresh : StopHunterVS := mkSelf ∅.

(** ** Notions the properties are stated with *)

(** The zone of a window and the two signals, as records. *)
Definition zone_of (data : DataFrame) : LiquidityZone :=
  {| recent_low := series_min (map Low data);
     recent_high := series_max (map High data);
     high_volume_nodes := _find_volume_clusters data;
     vwap := _calculate_vwap data |}.

Definition bear_signal (current : Bar) (lz : LiquidityZone) (score : float)
  : Signal :=
  {| type := bear_trap;
     entry := round2 (Finite (Close current));
     stop := round2 (fmul (recent_low lz) (Finite 0.995));
     target := round2 (vwap lz);
     confidence := py_min (Finite 90) (fmul score (Finite 100)) |}.

Definition bull_signal (current : Bar) (lz : LiquidityZone) (score : float)
  : Signal :=
  {| type := bull_trap;
     entry := round2 (Finite (Close current));
     stop := round2 (fmul (recent_high lz) (Finite 1.005));
     target := round2 (vwap lz);
     confidence := py_min (Finite 90) (fmul score (Finite 100)) |}.

(** The returns of a series, as the scorer computes them. *)
Definition returns_of `{E : Externals} (df : DataFrame) : list float :=
  series_diff (map (fun b => np_log (Close b)) df).

(** The signals of a ticker, read off a run on a fresh analyzer. *)
Definition signals_of `{E : Externals} (ticker : string) : list Signal :=
  match fst (detect_stop_hunt ticker fresh) with
  | Ok signals => signals
  | Raise _ => []
  end.

(** The edges [np.linspace] lays between two finite ends, 20 of them. *)
Definition edge_at (lo hi : Q) (i : nat) : Q :=
  if Nat.ltb i 19 then Qnat i * ((hi + - lo) / Qnat 19) + lo else hi.

(** The zone a detection over a ticker leaves in the cache, if any. *)
Definition refreshed `{E : Externals} (ticker : string)
  : option LiquidityZone :=
  match get_data ticker "1d" "5m", get_data ticker "20d" "1d" with
  | Some _, Some data => Some (zone_of data)
  | _, _ => None
  end.

(** The entry of a symbol in the mapping of a scan. *)
Definition reported `{E : Externals} (tickers : list string) (t : string)
  : option (list Signal) :=
  if decide (t ∈ tickers) then
    match signals_of t with
    | [] => None
    | signals => Some signals
    end
  else None.

(** ** The wording of the specification

    Equal-width bins over [[lo, hi]]: edge [i] of [K] bins, the bars whose
    close falls in bin [i] (the last bin closed on the right), and the volume
    accumulated in it. *)
Definition bin_edge (lo hi : Q) (K i : nat) : Q :=
  lo + Qnat i * ((hi - lo) / Qnat K).

Definition falls_in_bin (lo hi : Q) (K i : nat) (x : Q) : bool :=
  Qle_bool (bin_edge lo hi K i) x
  && (if Nat.eqb (S i) K then Qle_bool x (bin_edge lo hi K (S i))
      else Qltb x (bin_edge lo hi K (S i))).

Definition bin_volume (df : DataFrame) (lo hi : Q) (K i : nat) : Q :=
  series_sum
    (map Volume (List.filter (fun b => falls_in_bin lo hi K i (Close b)) df)).

(** The volume-weighted mean of the typical prices, and their plain mean. *)
Definition typical_price (b : Bar) : Q := (High b + Low b + Close b) / 3.

Fixpoint total (f : Bar -> Q) (df : DataFrame) : Q :=
  match df with
  | [] => 0
  | b :: r => f b + total f r
  end.

(** What scipy promises of a percentile: NaN or a number from 0 to 100. *)
Definition percentile (x : float) : Prop :=
  x = NaN \/ exists q, x = Finite q /\ 0 <= q <= 100.

(** * The analyzer on binary64

    The same methods, with the numbers of the program: every price is a
    binary64 value, every product, quotient, sum and difference is the
    IEEE 754 operation (round to nearest, ties to even) and every
    comparison is made on the rounded values.  The properties that turn on
    one comparison, on the place of a close among the edges of the bins or
    on the cent a price rounds to are stated over this module.

    A column of a fetched frame holds the binary64 value nearest to the
    quoted decimal, as Python reads a literal.  [Volume] is the int64
    column of the feed: the histogram adds it exactly, elsewhere pandas
    converts it to binary64.  [Series.sum] of pandas, whose order of
    summation is the library's own, is a parameter along with the feed,
    [np.log] and scipy's [percentileofscore]. *)
Module B64.

Abbreviation f64 := PrimFloat.float (only parsing).

#[local] Set Warnings "-inexact-float".
Local Open Scope float_scope.

Definition SF_of_Z (z : Z) : spec_float :=
  match z with
  | Z0 => S754_zero false
  | Zpos p => S754_finite false p 0
  | Zneg p => S754_finite true p 0
  end.

(** The binary64 value nearest to a rational (ties to even); the rational
    itself when it is one. *)
Definition of_Q (q : Q) : f64 :=
  SF2Prim (SFdiv prec emax (SF_of_Z (Qnum q)) (SF_of_Z (Zpos (Qden q)))).

Definition of_nat (n : nat) : f64 := of_Q (Qnat n).

(** [df[name]] *)
Definition col (f : Bar -> Q) (df : DataFrame) : list f64 :=
  map (fun b => of_Q (f b)) df.

(** Python's builtin [min(a, b)]: [b] when [b < a], else [a]. *)
Definition py_min (a b : f64) : f64 := if b <? a then b else a.

(** numpy's [rint]: the nearest integer, ties to the even one, with the
    sign of the argument.  Below [2^52] adding and removing [2^52] rounds
    to an integer; from there on every value is one. *)
Definition np_rint (x : f64) : f64 :=
  if abs x <? 4503599627370496 then
    let r := abs x + 4503599627370496 - 4503599627370496 in
    if get_sign x then - r else r
  else x.

(** [round(x, 2)] on a numpy scalar: scale by 100, [rint], scale back. *)
Definition round2 (x : f64) : f64 := np_rint (x * 100) / 100.

(** [Series.min()] and [Series.max()]: NaN on an empty series. *)
Definition series_min (s : list f64) : f64 :=
  match s with
  | [] => nan
  | x :: r => fold_left (fun m y => if y <? m then y else m) r x
  end.

Definition series_max (s : list f64) : f64 :=
  match s with
  | [] => nan
  | x :: r => fold_left (fun m y => if m <? y then y else m) r x
  end.

(** [Series.diff()]: the first entry is NaN. *)
Fixpoint diff_from (prev : f64) (s : list f64) : list f64 :=
  match s with
  | [] => []
  | x :: r => (x - prev) :: diff_from x r
  end.

Definition series_diff (s : list f64) : list f64 :=
  match s with
  | [] => []
  | x :: r => nan :: diff_from x r
  end.

(** [np.linspace(start, stop, num)]: [delta = stop - start],
    [step = delta / (num - 1)], the samples [i * step + start] (or
    [i / (num - 1) * delta + start] when the step vanishes), the last one
    set to [stop]. *)
Definition sample (start stop : f64) (div i : nat) : f64 :=
  let delta := stop - start in
  let step := delta / of_nat div in
  (if step =? 0 then of_nat i / of_nat div * delta else of_nat i * step)
  + start.

Definition np_linspace (start stop : f64) (num : nat) : list f64 :=
  match num with
  | O => []
  | 1%nat => [start]
  | S div => map (sample start stop div) (seq 0 div) ++ [stop]
  end.

(** The check of [np.histogram] on an array of edges: it raises when some
    edge is greater than the next one; equal edges pass. *)
Fixpoint monotonic (bins : list f64) : bool :=
  match bins with
  | x :: (y :: _) as r => negb (y <? x) && monotonic r
  | _ => true
  end.

(** Bin [i] is [[bins[i], bins[i+1])], the last bin is closed on the right. *)
Definition in_bin (bins : list f64) (i : nat) (x : f64) : bool :=
  match bins !! i, bins !! S i with
  | Some lo, Some hi =>
      (lo <=? x)
      && (if Nat.eqb (S (S i)) (length bins) then x <=? hi else x <? hi)
  | _, _ => false
  end.

Definition weight_in (a : list f64) (weights : list Q) (p : f64 -> bool) : Q :=
  fold_left Qplus
    (map snd (List.filter (fun aw => p (fst aw)) (combine a weights))) 0%Q.

(** [np.histogram(a, bins=bins, weights=weights)] for an array of edges and
    integer weights: the summed weight of the values of each bin, and the
    edges. *)
Definition np_histogram (a : list f64) (bins : list f64) (weights : list Q)
  : result (list Q * list f64) :=
  if monotonic bins then
    Ok (map (fun i => weight_in a weights (in_bin bins i))
          (seq 0 (length bins - 1)),
        bins)
  else Raise ValueError.

(** ** External collaborators *)
Class Externals : Type := {
  yf_download : string -> string -> string -> result DataFrame;
  np_log : f64 -> f64;
  percentileofscore : list f64 -> f64 -> f64;
  series_sum : list f64 -> f64
}.

(** ** The analyzer *)

Record LiquidityZone : Type := mkZone {
  recent_low : f64;
  recent_high : f64;
  high_volume_nodes : list f64;
  vwap : f64
}.

Record Signal : Type := mkSignal {
  type : SignalType;
  entry : f64;
  stop : f64;
  target : f64;
  confidence : f64
}.

Record StopHunterVS : Type := mkSelf {
  liquidity_zones : gmap string LiquidityZone
}.

Definition M (A : Type) : Type := StopHunterVS -> result A * StopHunterVS.

Definition ret {A} (a : A) : M A := fun self => (Ok a, self).

Definition bind {A B} (m : M A) (k : A -> M B) : M B :=
  fun self =>
    match m self with
    | (Ok a, self') => k a self'
    | (Raise e, self') => (Raise e, self')
    end.

Definition lift {A} (r : result A) : M A := fun self => (r, self).

Definition set_zone (ticker : string) (z : LiquidityZone) : M unit :=
  fun self => (Ok tt, mkSelf (<[ticker := z]> (liquidity_zones self))).

#[local] Set Warnings "-notation-overridden".
#[local] Notation "x <- m ;; k" := (bind m (fun x => k))
  (at level 100, m at next level, right associativity).

Definition _find_volume_clusters (df : DataFrame) : list f64 :=
  match
    rbind
      (np_histogram (col Close df)
         (np_linspace (series_min (col Low df)) (series_max (col High df)) 20)
         (map Volume df))
      (fun '(hist, edges) =>
         rbind (take_at edges (last_n 3 (np_argsort hist)))
           (fun picked => Ok (map round2 picked)))
  with
  | Ok nodes => nodes
  | Raise _ => []
  end.

Section Analyzer.
Context `{E : Externals}.

Definition get_data (ticker period interval : string) : option DataFrame :=
  match
    rbind (yf_download ticker period interval)
      (fun data => if data is [] then Raise ValueError else Ok data)
  with
  | Ok data => Some data
  | Raise _ => None
  end.

(** [Series.mean()]: the sum over the count. *)
Definition series_mean (s : list f64) : f64 :=
  series_sum s / of_nat (length s).

Definition _calculate_vwap (df : DataFrame) : f64 :=
  series_sum
    (map (fun b =>
            of_Q (Volume b) * (of_Q (High b) + of_Q (Low b) + of_Q (Close b))
            / 3)
       df)
  / series_sum (col Volume df).

Definition identify_liquidity_pools (ticker : string)
  : M (option LiquidityZone) :=
  match get_data ticker "20d" "1d" with
  | None => ret None
  | Some data =>
      let zone :=
        {| recent_low := series_min (col Low data);
           recent_high := series_max (col High data);
           high_volume_nodes := _find_volume_clusters data;
           vwap := _calculate_vwap data |} in
      _ <- set_zone ticker zone ;;
      ret (Some zone)
  end.

Definition _calculate_confidence (df : DataFrame) (direction : string)
  : result f64 :=
  let returns := series_diff (map np_log (col Close df)) in
  rbind (iloc_last returns) (fun latest =>
    if String.eqb direction "down" then
      Ok (percentileofscore returns latest / 100)
    else
      Ok (1 - percentileofscore returns latest / 100)).

Definition bear_trap_fires (current : Bar) (lz : LiquidityZone)
    (intraday : DataFrame) : bool :=
  (of_Q (Low current) <=? recent_low lz * 1.005)
  && (recent_low lz <? of_Q (Close current))
  && (series_mean (col Volume intraday) * 1.8 <? of_Q (Volume current)).

Definition bull_trap_fires (current : Bar) (lz : LiquidityZone)
    (intraday : DataFrame) : bool :=
  (recent_high lz * 0.995 <=? of_Q (High current))
  && (of_Q (Close current) <? recent_high lz)
  && (series_mean (col Volume intraday) * 1.8 <? of_Q (Volume current)).

Definition detect_stop_hunt (ticker : string) : M (list Signal) :=
  match get_data ticker "1d" "5m" with
  | None => ret []
  | Some intraday =>
      lz <- identify_liquidity_pools ticker ;;
      match lz with
      | None => ret []
      | Some lz =>
          current <- lift (iloc_last intraday) ;;
          let signals := [] in
          signals <-
            (if bear_trap_fires current lz intraday then
               c <- lift (_calculate_confidence intraday "down") ;;
               ret (signals ++
                      [ {| type := bear_trap;
                           entry := round2 (of_Q (Close current));
                           stop := round2 (recent_low lz * 0.995);
                           target := round2 (vwap lz);
                           confidence := py_min 90 (c * 100) |} ])
             else ret signals) ;;
          signals <-
            (if bull_trap_fires current lz intraday then
               c <- lift (_calculate_confidence intraday "up") ;;
               ret (signals ++
                      [ {| type := bull_trap;
                           entry := round2 (of_Q (Close current));
                           stop := round2 (recent_high lz * 1.005);
                           target := round2 (vwap lz);
                           confidence := py_min 90 (c * 100) |} ])
             else ret signals) ;;
          ret signals
      end
  end.

End Analyzer.

(** ** A concrete environment

    scipy's [percentileofscore] as above, on binary64; a sum from left to
    right; a series for the logarithm. *)
Definition scipy_percentileofscore (a : list f64) (score : f64) : f64 :=
  if existsb PrimFloat.is_nan a || PrimFloat.is_nan score then nan
  else
    match length a with
    | O => nan
    | n =>
        let left := length (List.filter (fun x => x <? score) a) in
        let right := length (List.filter (fun x => x <=? score) a) in
        of_nat (left + right + (if Nat.ltb left right then 1 else 0))
        * (50 / of_nat n)
    end.

Definition sum_left_to_right (s : list f64) : f64 := fold_left add s 0.

Fixpoint atanh_series (z zpow : f64) (k : nat) (terms : nat) : f64 :=
  match terms with
  | O => 0
  | S n => zpow / of_nat k + atanh_series z (zpow * z * z) (k + 2) n
  end.

Definition log_model (x : f64) : f64 :=
  if PrimFloat.is_nan x || (x <? 0) then nan
  else if x =? 0 then neg_infinity
  else if is_infinity x then infinity
  else
    let (m, e) := Z.frexp x in
    let z := (m - 1) / (m + 1) in
    of_Q (inject_Z e) * 0.6931471805599453 + 2 * atanh_series z z 1 12.

(** The feed of the scenarios, and three more symbols whose latest bar
    sits on the thresholds: "EDGE" (recent low 100, latest low 100.5),
    "EDGE_UP" (recent high 6.2, latest high 6.169) and "TIE" (mean volume
    305/9, latest volume 61). *)
Definition edge_window : DataFrame :=
  [ mkBar 101 103 100 102 1000; mkBar 102 104 101 103 1200 ]%Q.

Definition edge_intraday : DataFrame :=
  [ mkBar 101 101.2 100.8 101 3000;
    mkBar 101 101.1 100.6 100.9 6000;
    mkBar 100.9 101 100.5 100.7 15000 ]%Q.

Definition edge_up_window : DataFrame :=
  [ mkBar 6 6.2 5.9 6.1 1000; mkBar 6.1 6.15 6 6.1 1200 ]%Q.

Definition edge_up_intraday : DataFrame :=
  [ mkBar 6.1 6.12 6.08 6.1 3000;
    mkBar 6.1 6.15 6.09 6.12 6000;
    mkBar 6.12 6.169 6.1 6.15 15000 ]%Q.

Definition tie_intraday : DataFrame :=
  [ mkBar 99 99.2 98.9 99 31; mkBar 99 99.2 98.9 99 31;
    mkBar 99 99.2 98.9 99 31; mkBar 99 99.2 98.9 99 30;
    mkBar 99 99.2 98.9 99 30; mkBar 99 99.2 98.9 99 30;
    mkBar 99 99.2 98.9 99 31; mkBar 99 99.2 98.9 99 30;
    mkBar 99 99.2 98.3 99 61 ]%Q.

(** Three closes on the decimal edges of the range 100 to 101.9. *)
Definition on_edge_window : DataFrame :=
  [ mkBar 100 101.9 100 100.6 1000;
    mkBar 100 101.9 100 101.1 2000;
    mkBar 100 101.9 100 101.6 3000 ]%Q.

Definition scenario_download (ticker period interval : string)
  : result DataFrame :=
  if String.eqb ticker "EDGE" then
    Ok (if String.eqb period "20d" then edge_window else edge_intraday)
  else if String.eqb ticker "EDGE_UP" then
    Ok (if String.eqb period "20d" then edge_up_window else edge_up_intraday)
  else if String.eqb ticker "TIE" then
    Ok (if String.eqb period "20d" then window_A else tie_intraday)
  else scenario_download ticker period interval.

Definition scenario : Externals :=
  {| yf_download := scenario_download;
     np_log := log_model;
     percentileofscore := scipy_percentileofscore;
     series_sum := sum_left_to_right |}.

Definition fresh : StopHunterVS := mkSelf ∅.

(** ** Notions the properties are stated with *)

Definition zone_of `{E : Externals} (data : DataFrame) : LiquidityZone :=
  {| recent_low := series_min (col Low data);
     recent_high := series_max (col High data);
     high_volume_nodes := _find_volume_clusters data;
     vwap := _calculate_vwap data |}.

Definition bear_signal (current : Bar) (lz : LiquidityZone) (score : f64)
  : Signal :=
  {| type := bear_trap;
     entry := round2 (of_Q (Close current));
     stop := round2 (recent_low lz * 0.995);
     target := round2 (vwap lz);
     confidence := py_min 90 (score * 100) |}.

Definition bull_signal (current : Bar) (lz : LiquidityZone) (score : f64)
  : Signal :=
  {| type := bull_trap;
     entry := round2 (of_Q (Close current));
     stop := round2 (recent_high lz * 1.005);
     target := round2 (vwap lz);
     confidence := py_min 90 (score * 100) |}.

Definition is_bear (s : Signal) : bool :=
  match type s with bear_trap => true | bull_trap => false end.

Definition is_bull (s : Signal) : bool :=
  match type s with bull_trap => true | bear_trap => false end.

(** Equal-width bins over [[lo, hi]], as the clustering lays them: the
    edges, the closes of a bin (the last one closed on the right) and the
    volume accumulated in it. *)
Definition edge_at (lo hi : f64) (i : nat) : f64 :=
  if Nat.ltb i 19 then sample lo hi 19 i else hi.

Definition falls_in_bin (lo hi : f64) (i : nat) (x : f64) : bool :=
  (edge_at lo hi i <=? x)
  && (if Nat.eqb (S i) 19 then x <=? edge_at lo hi (S i)
      else x <? edge_at lo hi (S i)).

Definition bin_volume (df : DataFrame) (lo hi : f64) (i : nat) : Q :=
  fold_left Qplus
    (map Volume
       (List.filter (fun b => falls_in_bin lo hi i (of_Q (Close b))) df))
    0%Q.

(** Volume clustering as the specification words it: 20 bins (so 21
    edges), the three heaviest ones in ascending order of volume, the upper
    edge of each. *)
Definition claimed_volume_clusters (df : DataFrame) : list f64 :=
  let edges :=
    np_linspace (series_min (col Low df)) (series_max (col High df)) 21 in
  match
    rbind (np_histogram (col Close df) edges (map Volume df))
      (fun '(hist, _) =>
         rbind (take_at edges (map S (last_n 3 (np_argsort hist))))
           (fun picked => Ok (map round2 picked)))
  with
  | Ok nodes => nodes
  | Raise _ => []
  end.

(** Volumes as the feed delivers them: whole numbers, whose sum binary64
    holds exactly. *)
Definition whole_volumes (df : DataFrame) : Prop :=
  Forall (fun b => Qden (Volume b) = 1%positive /\ (0 <= Qnum (Volume b))%Z) df
  /\ (Qnum (fold_left Qplus (map Volume df) 0%Q) < 2 ^ 53)%Z.

End B64.

(** * Properties *)

(** ** Comparisons and rounding *)

Lemma Qltb_lt (a b : Q) : Qltb a b = true <-> a < b.
Proof.
  unfold Qltb. rewrite negb_true_iff. split.
  - intros H. apply Qnot_le_lt. intros Hle.
    apply Qle_bool_iff in Hle. congruence.
  - intros H. destruct (Qle_bool b a) eqn:Hb; [| reflexivity].
    apply Qle_bool_iff in Hb. exfalso. apply (Qlt_not_le _ _ H Hb).
Qed.

Lemma Qltb_comp (a a' b b' : Q) : a == a' -> b == b' -> Qltb a b = Qltb a' b'.
Proof. intros Ha Hb. unfold Qltb. now rewrite Ha, Hb. Qed.

Lemma Qle_bool_comp (a a' b b' : Q) :
  a == a' -> b == b' -> Qle_bool a b = Qle_bool a' b'.
Proof. intros Ha Hb. now rewrite Ha, Hb. Qed.

Lemma rint_comp (x y : Q) : x == y -> rint x = rint y.
Proof.
  intros H. unfold rint. rewrite (Qfloor_comp _ _ H).
  assert (Hc : (x - inject_Z (Qfloor y) ?= 1 # 2)
               = (y - inject_Z (Qfloor y) ?= 1 # 2)) by now rewrite H.
  now rewrite Hc.
Qed.

Lemma rint_close (x : Q) :
  inject_Z (rint x) - (1 # 2) <= x <= inject_Z (rint x) + (1 # 2).
Proof.
  unfold rint.
  pose proof (Qfloor_le x) as Hlo.
  pose proof (Qlt_floor x) as Hhi.
  rewrite inject_Z_plus in Hhi. change (inject_Z 1) with 1 in Hhi.
  destruct (Qcompare_spec (x - inject_Z (Qfloor x)) (1 # 2)) as [He | Hl | Hg].
  - destruct (Z.even (Qfloor x)).
    + split; lra.
    + rewrite inject_Z_plus. change (inject_Z 1) with 1. split; lra.
  - split; lra.
  - rewrite inject_Z_plus. change (inject_Z 1) with 1. split; lra.
Qed.

Lemma round2q_comp (x y : Q) : x == y -> round2q x = round2q y.
Proof.
  intros H. unfold round2q. f_equal. apply rint_comp. now rewrite H.
Qed.

Lemma round2q_close (x : Q) : x - 0.005 <= round2q x <= x + 0.005.
Proof.
  unfold round2q. pose proof (rint_close (x * 100)) as H.
  rewrite (Qmake_Qdiv (rint (x * 100)) 100).
  set (r := inject_Z (rint (x * 100))) in *.
  change (inject_Z (Z.pos 100)) with 100.
  split.
  - apply Qle_shift_div_l; lra.
  - apply Qle_shift_div_r; lra.
Qed.

(** ** Series *)

Lemma fold_min_le (r : list Q) (x : Q) :
  fold_left Qmin r x <= x /\ Forall (fun y => fold_left Qmin r x <= y) r.
Proof.
  revert x. induction r as [| y r IH]; intros x; simpl.
  - split; [apply Qle_refl | constructor].
  - destruct (IH (Qmin x y)) as [H1 H2]. split.
    + eapply Qle_trans; [exact H1 | apply Q.le_min_l].
    + constructor; [| exact H2].
      eapply Qle_trans; [exact H1 | apply Q.le_min_r].
Qed.

Lemma fold_max_ge (r : list Q) (x : Q) :
  x <= fold_left Qmax r x /\ Forall (fun y => y <= fold_left Qmax r x) r.
Proof.
  revert x. induction r as [| y r IH]; intros x; simpl.
  - split; [apply Qle_refl | constructor].
  - destruct (IH (Qmax x y)) as [H1 H2]. split.
    + eapply Qle_trans; [apply Q.le_max_l | exact H1].
    + constructor; [| exact H2].
      eapply Qle_trans; [apply Q.le_max_r | exact H1].
Qed.

Lemma Qmin_cases (x y : Q) : Qmin x y = x \/ Qmin x y = y.
Proof. unfold Qmin, GenericMinMax.gmin. destruct (x ?= y); auto. Qed.

Lemma Qmax_cases (x y : Q) : Qmax x y = x \/ Qmax x y = y.
Proof. unfold Qmax, GenericMinMax.gmax. destruct (x ?= y); auto. Qed.

Lemma fold_min_in (r : list Q) (x : Q) : In (fold_left Qmin r x) (x :: r).
Proof.
  revert x. induction r as [| y r IH]; intros x; simpl.
  - now left.
  - destruct (IH (Qmin x y)) as [H | H].
    + rewrite <- H. destruct (Qmin_cases x y) as [Hm | Hm]; rewrite Hm; auto.
    + auto.
Qed.

Lemma fold_max_in (r : list Q) (x : Q) : In (fold_left Qmax r x) (x :: r).
Proof.
  revert x. induction r as [| y r IH]; intros x; simpl.
  - now left.
  - destruct (IH (Qmax x y)) as [H | H].
    + rewrite <- H. destruct (Qmax_cases x y) as [Hm | Hm]; rewrite Hm; auto.
    + auto.
Qed.

(** On a non-empty series the minimum is an entry below all entries. *)
Lemma series_min_spec (s : list Q) :
  s <> [] ->
  exists lo, series_min s = Finite lo /\ In lo s /\ Forall (fun y => lo <= y) s.
Proof.
  destruct s as [| x r]; [congruence | intros _].
  exists (fold_left Qmin r x). destruct (fold_min_le r x) as [H1 H2].
  split; [reflexivity | split; [apply fold_min_in |]].
  constructor; assumption.
Qed.

Lemma series_max_spec (s : list Q) :
  s <> [] ->
  exists hi, series_max s = Finite hi /\ In hi s /\ Forall (fun y => y <= hi) s.
Proof.
  destruct s as [| x r]; [congruence | intros _].
  exists (fold_left Qmax r x). destruct (fold_max_ge r x) as [H1 H2].
  split; [reflexivity | split; [apply fold_max_in |]].
  constructor; assumption.
Qed.

Lemma fold_plus_acc (s : list Q) (a : Q) :
  fold_left Qplus s a == a + fold_left Qplus s 0.
Proof.
  revert a. induction s as [| x s IH]; intros a; simpl.
  - lra.
  - rewrite (IH (a + x)), (IH (0 + x)). lra.
Qed.

Lemma series_sum_cons (x : Q) (s : list Q) :
  series_sum (x :: s) == x + series_sum s.
Proof. unfold series_sum. simpl. rewrite fold_plus_acc. lra. Qed.

Lemma series_sum_map (f : Bar -> Q) (df : DataFrame) :
  series_sum (map f df) == total f df.
Proof.
  induction df as [| b r IH]; simpl.
  - reflexivity.
  - rewrite series_sum_cons, IH. reflexivity.
Qed.

Lemma iloc_last_nonempty {A} (s : list A) :
  s <> [] -> exists x, last s = Some x /\ iloc_last s = Ok x.
Proof.
  intros H. unfold iloc_last. destruct (last s) as [x |] eqn:Hl.
  - eauto.
  - apply last_None in Hl. contradiction.
Qed.

Lemma series_diff_nonempty (s : list float) : s <> [] -> series_diff s <> [].
Proof. destruct s; [congruence | discriminate]. Qed.

Lemma map_nonempty {A B} (f : A -> B) (l : list A) : l <> [] -> map f l <> [].
Proof. destruct l; [congruence | discriminate]. Qed.

Create HintDb frames.
#[local] Hint Resolve map_nonempty series_diff_nonempty : frames.

(** ** One run of the detector *)

Section Runs.
Context `{E : Externals}.

Lemma get_data_nonempty (ticker period interval : string) (df : DataFrame) :
  get_data ticker period interval = Some df -> df <> [].
Proof.
  unfold get_data. destruct (yf_download ticker period interval) as [[| b r] | e];
    simpl; intros H; inversion H; subst; discriminate.
Qed.

Lemma get_data_raise (ticker period interval : string) (e : exn) :
  yf_download ticker period interval = Raise e ->
  get_data ticker period interval = None.
Proof. unfold get_data. intros ->. reflexivity. Qed.

Lemma get_data_empty (ticker period interval : string) :
  yf_download ticker period interval = Ok [] ->
  get_data ticker period interval = None.
Proof. unfold get_data. intros ->. reflexivity. Qed.

Lemma identify_run (ticker : string) (self : StopHunterVS) (data : DataFrame) :
  get_data ticker "20d" "1d" = Some data ->
  identify_liquidity_pools ticker self
  = (Ok (Some (zone_of data)),
     mkSelf (<[ticker := zone_of data]> (liquidity_zones self))).
Proof. unfold identify_liquidity_pools. intros ->. reflexivity. Qed.

Lemma identify_none (ticker : string) (self : StopHunterVS) :
  get_data ticker "20d" "1d" = None ->
  identify_liquidity_pools ticker self = (Ok None, self).
Proof. unfold identify_liquidity_pools. intros ->. reflexivity. Qed.

Lemma confidence_run (df : DataFrame) :
  df <> [] ->
  exists latest,
    last (returns_of df) = Some latest
    /\ _calculate_confidence df "down"
       = Ok (fdiv (percentileofscore (returns_of df) latest) (Finite 100))
    /\ _calculate_confidence df "up"
       = Ok (fsub (Finite 1)
               (fdiv (percentileofscore (returns_of df) latest) (Finite 100))).
Proof.
  intros Hne.
  destruct (iloc_last_nonempty (returns_of df)) as (latest & Hl & Hi);
    [unfold returns_of; auto with frames |].
  exists latest. unfold _calculate_confidence. fold (returns_of df).
  rewrite Hi. simpl. auto.
Qed.

Lemma detect_run (ticker : string) (self : StopHunterVS)
    (intraday data : DataFrame) (current : Bar) :
  get_data ticker "1d" "5m" = Some intraday ->
  get_data ticker "20d" "1d" = Some data ->
  last intraday = Some current ->
  exists down up,
    _calculate_confidence intraday "down" = Ok down
    /\ _calculate_confidence intraday "up" = Ok up
    /\ detect_stop_hunt ticker self
       = (Ok ((if bear_trap_fires current (zone_of data) intraday
               then [bear_signal current (zone_of data) down] else [])
              ++ (if bull_trap_fires current (zone_of data) intraday
                  then [bull_signal current (zone_of data) up] else [])),
          mkSelf (<[ticker := zone_of data]> (liquidity_zones self))).
Proof.
  intros Hi Hd Hl.
  destruct (confidence_run intraday (get_data_nonempty _ _ _ _ Hi))
    as (latest & _ & Hdown & Hup).
  eexists _, _. split; [exact Hdown |]. split; [exact Hup |].
  unfold detect_stop_hunt, bind. rewrite Hi, (identify_run _ _ _ Hd).
  unfold lift, iloc_last. rewrite Hl, Hdown, Hup.
  destruct (bear_trap_fires current (zone_of data) intraday),
    (bull_trap_fires current (zone_of data) intraday); reflexivity.
Qed.

Lemma detect_no_intraday (ticker : string) (self : StopHunterVS) :
  get_data ticker "1d" "5m" = None ->
  detect_stop_hunt ticker self = (Ok [], self).
Proof. unfold detect_stop_hunt. intros ->. reflexivity. Qed.

Lemma detect_no_zone (ticker : string) (self : StopHunterVS) :
  get_data ticker "20d" "1d" = None ->
  detect_stop_hunt ticker self = (Ok [], self).
Proof.
  intros H. unfold detect_stop_hunt, bind.
  destruct (get_data ticker "1d" "5m"); [| reflexivity].
  rewrite (identify_none _ _ H). reflexivity.
Qed.

(** The detector never raises, and its signals do not depend on [self]. *)
Lemma detect_total (ticker : string) :
  exists signals,
    forall self, exists self',
      detect_stop_hunt ticker self = (Ok signals, self')
      /\ (self' = self
          \/ exists data,
               get_data ticker "20d" "1d" = Some data
               /\ self' = mkSelf (<[ticker := zone_of data]>
                                    (liquidity_zones self))).
Proof.
  destruct (get_data ticker "1d" "5m") as [intraday |] eqn:Hi.
  - destruct (get_data ticker "20d" "1d") as [data |] eqn:Hd.
    + destruct (iloc_last_nonempty intraday (get_data_nonempty _ _ _ _ Hi))
        as (current & Hl & _).
      destruct (detect_run ticker fresh _ _ _ Hi Hd Hl) as (down & up & Hdn & Hup & _).
      eexists. intros self.
      destruct (detect_run ticker self _ _ _ Hi Hd Hl) as (d' & u' & Hd' & Hu' & Hrun).
      rewrite Hdn in Hd'. rewrite Hup in Hu'. inversion Hd'. inversion Hu'. subst.
      eexists. split; [exact Hrun |]. right. eauto.
    + exists []. intros self. exists self. split; [| now left].
      now apply detect_no_zone.
  - exists []. intros self. exists self. split; [| now left].
    now apply detect_no_intraday.
Qed.

End Runs.

#[local] Hint Resolve get_data_nonempty : frames.

(** Case analysis on the two tests of the detector. *)
Ltac by_traps :=
  destruct (bear_trap_fires _ _ _), (bull_trap_fires _ _ _).

Lemma signals_cases (b1 b2 : bool) (s1 s2 s : Signal) :
  s ∈ (if b1 then [s1] else []) ++ (if b2 then [s2] else [])
  <-> (b1 = true /\ s = s1) \/ (b2 = true /\ s = s2).
Proof.
  rewrite list_elem_of_In, in_app_iff.
  destruct b1, b2; simpl; intuition congruence.
Qed.

Lemma mean_nonempty (s : list Q) :
  s <> [] ->
  exists m, series_mean s = Finite m /\ m == series_sum s / Qnat (length s).
Proof.
  intros H. unfold series_mean, fdiv.
  destruct (Qeq_bool (Qnat (length s)) 0) eqn:Hz.
  - apply Qeq_bool_iff in Hz. destruct s; [congruence |].
    unfold Qnat, Qeq in Hz. simpl in Hz. lia.
  - eexists. split; reflexivity.
Qed.

(** ** One run of the detector on binary64 *)

Section Runs64.
Context `{E : B64.Externals}.

Lemma get_data_nonempty64 (ticker period interval : string) (df : DataFrame) :
  B64.get_data ticker period interval = Some df -> df <> [].
Proof.
  unfold B64.get_data.
  destruct (B64.yf_download ticker period interval) as [[| b r] | e];
    simpl; intros H; inversion H; subst; discriminate.
Qed.

Lemma identify_run64 (ticker : string) (self : B64.StopHunterVS)
    (data : DataFrame) :
  B64.get_data ticker "20d" "1d" = Some data ->
  B64.identify_liquidity_pools ticker self
  = (Ok (Some (B64.zone_of data)),
     B64.mkSelf (<[ticker := B64.zone_of data]> (B64.liquidity_zones self))).
Proof. unfold B64.identify_liquidity_pools. intros ->. reflexivity. Qed.

Lemma confidence_run64 (df : DataFrame) :
  df <> [] ->
  exists down up,
    B64._calculate_confidence df "down" = Ok down
    /\ B64._calculate_confidence df "up" = Ok up.
Proof.
  intros Hne. unfold B64._calculate_confidence.
  destruct (iloc_last_nonempty
              (B64.series_diff (map B64.np_log (B64.col Close df))))
    as (latest & _ & Hi).
  { destruct df; [congruence | discriminate]. }
  rewrite Hi. simpl. eauto.
Qed.

Lemma detect_run64 (ticker : string) (self : B64.StopHunterVS)
    (intraday data : DataFrame) (current : Bar) :
  B64.get_data ticker "1d" "5m" = Some intraday ->
  B64.get_data ticker "20d" "1d" = Some data ->
  last intraday = Some current ->
  exists down up,
    B64._calculate_confidence intraday "down" = Ok down
    /\ B64._calculate_confidence intraday "up" = Ok up
    /\ B64.detect_stop_hunt ticker self
       = (Ok ((if B64.bear_trap_fires current (B64.zone_of data) intraday
               then [B64.bear_signal current (B64.zone_of data) down] else [])
              ++ (if B64.bull_trap_fires current (B64.zone_of data) intraday
                  then [B64.bull_signal current (B64.zone_of data) up]
                  else [])),
          B64.mkSelf
            (<[ticker := B64.zone_of data]> (B64.liquidity_zones self))).
Proof.
  intros Hi Hd Hl.
  destruct (confidence_run64 intraday (get_data_nonempty64 _ _ _ _ Hi))
    as (down & up & Hdown & Hup).
  exists down, up. split; [exact Hdown |]. split; [exact Hup |].
  unfold B64.detect_stop_hunt, B64.bind. rewrite Hi, (identify_run64 _ _ _ Hd).
  unfold B64.lift, iloc_last. rewrite Hl, Hdown, Hup.
  destruct (B64.bear_trap_fires current (B64.zone_of data) intraday),
    (B64.bull_trap_fires current (B64.zone_of data) intraday); reflexivity.
Qed.

End Runs64.

Lemma signals_cases64 (b1 b2 : bool) (s1 s2 s : B64.Signal) :
  s ∈ (if b1 then [s1] else []) ++ (if b2 then [s2] else [])
  <-> (b1 = true /\ s = s1) \/ (b2 = true /\ s = s2).
Proof.
  rewrite list_elem_of_In, in_app_iff.
  destruct b1, b2; simpl; intuition congruence.
Qed.

Ltac by_traps64 :=
  destruct (B64.bear_trap_fires _ _ _), (B64.bull_trap_fires _ _ _).

(** ** The bear trap *)

(** C1.  With intraday bars and a zone at hand, the detector returns
    normally; a bear-trap signal is among its signals exactly when the
    latest low is at most the recent low times 1.005, the latest close is
    above the recent low and the latest volume is above the mean intraday
    volume (the sum of the volumes over their count) times 1.8, the
    products being those of binary64; such a signal carries the close, the
    recent low times 0.995 and the vwap, each rounded to two decimals, and
    the confidence [min(90, score * 100)] of the downward score; there is at
    most one.  On the window of scenario B (low 98.3, close 99.0, volume
    15000, mean volume 8000) exactly one bear-trap signal comes out, with
    stop 97.51. *)
Theorem bear_trap_signal `{E : B64.Externals} (ticker : string)
    (self : B64.StopHunterVS) (intraday data : DataFrame) (current : Bar) :
  B64.get_data ticker "1d" "5m" = Some intraday ->
  B64.get_data ticker "20d" "1d" = Some data ->
  last intraday = Some current ->
  exists signals self' lz score mean,
    B64.detect_stop_hunt ticker self = (Ok signals, self')
    /\ fst (B64.identify_liquidity_pools ticker self) = Ok (Some lz)
    /\ B64.recent_low lz = B64.series_min (B64.col Low data)
    /\ B64._calculate_confidence intraday "down" = Ok score
    /\ mean = (B64.series_sum (B64.col Volume intraday)
               / B64.of_nat (length intraday))%float
    /\ ((exists s, s ∈ signals /\ B64.type s = bear_trap)
        <-> (B64.of_Q (Low current) <=? B64.recent_low lz * 1.005)%float
            = true
            /\ (B64.recent_low lz <? B64.of_Q (Close current))%float = true
            /\ (mean * 1.8 <? B64.of_Q (Volume current))%float = true)
    /\ (forall s, s ∈ signals -> B64.type s = bear_trap ->
          B64.entry s = B64.round2 (B64.of_Q (Close current))
          /\ B64.stop s = B64.round2 (B64.recent_low lz * 0.995)%float
          /\ B64.target s = B64.round2 (B64.vwap lz)
          /\ B64.confidence s = B64.py_min 90 (score * 100)%float)
    /\ (length (List.filter B64.is_bear signals) <= 1)%nat
    /\ (data = window_A -> B64.of_Q (Low current) = 98.3%float ->
        B64.of_Q (Close current) = 99%float ->
        B64.of_Q (Volume current) = 15000%float -> mean = 8000%float ->
        exists s,
          List.filter B64.is_bear signals = [s]
          /\ B64.stop s = 97.51%float).
Proof.
  intros Hi Hd Hl.
  destruct (detect_run64 ticker self _ _ _ Hi Hd Hl)
    as (down & up & Hdn & Hup & Hrun).
  eexists _, _, (B64.zone_of data), down, _.
  split; [exact Hrun |]. split; [now rewrite (identify_run64 _ _ _ Hd) |].
  split; [reflexivity |]. split; [exact Hdn |]. split; [reflexivity |].
  assert (Hfires :
    B64.bear_trap_fires current (B64.zone_of data) intraday = true
    <-> (B64.of_Q (Low current)
         <=? B64.recent_low (B64.zone_of data) * 1.005)%float = true
        /\ (B64.recent_low (B64.zone_of data)
            <? B64.of_Q (Close current))%float = true
        /\ (B64.series_sum (B64.col Volume intraday)
            / B64.of_nat (length intraday) * 1.8
            <? B64.of_Q (Volume current))%float = true).
  { unfold B64.bear_trap_fires, B64.series_mean, B64.col.
    rewrite !andb_true_iff, length_map. tauto. }
  split; [| split; [| split]].
  - rewrite <- Hfires. split.
    + intros (s & Hin & Hty). apply signals_cases64 in Hin.
      destruct Hin as [[Hb ->] | [_ ->]]; [exact Hb | discriminate].
    + intros Hb. exists (B64.bear_signal current (B64.zone_of data) down).
      split; [| reflexivity]. apply signals_cases64. now left.
  - intros s Hin Hty. apply signals_cases64 in Hin.
    destruct Hin as [[_ ->] | [_ ->]]; [| discriminate].
    repeat split.
  - by_traps64; simpl; lia.
  - intros -> HL HC HV HM.
    assert (Hb : B64.bear_trap_fires current (B64.zone_of window_A) intraday
                 = true).
    { apply Hfires. rewrite HL, HC, HV, HM.
      change (B64.recent_low (B64.zone_of window_A))
        with (B64.series_min (B64.col Low window_A)).
      repeat split; vm_compute; reflexivity. }
    rewrite Hb. exists (B64.bear_signal current (B64.zone_of window_A) down).
    split.
    + destruct (B64.bull_trap_fires _ _ _); reflexivity.
    + change (B64.stop (B64.bear_signal current (B64.zone_of window_A) down))
        with (B64.round2 (B64.series_min (B64.col Low window_A) * 0.995)%float).
      vm_compute. reflexivity.
Qed.

(** Scenario B itself, ticker "B" over [B64.scenario]; and two latest bars
    on the threshold: with the recent low at 100 and the latest low at
    100.5 no trap is reported, the binary64 product of 100 and 1.005 being
    under 100.5; with a mean volume of 305/9 a latest volume of 61 is
    enough, its product with 1.8 being under 61. *)
Lemma bear_trap_signal_scenario_B :
  (exists s,
     fst (B64.detect_stop_hunt (E := B64.scenario) "B" B64.fresh) = Ok [s]
     /\ B64.type s = bear_trap /\ B64.stop s = 97.51%float)
  /\ fst (B64.detect_stop_hunt (E := B64.scenario) "EDGE" B64.fresh) = Ok []
  /\ (exists s,
        fst (B64.detect_stop_hunt (E := B64.scenario) "TIE" B64.fresh)
        = Ok [s]
        /\ B64.type s = bear_trap).
Proof.
  split; [| split].
  - destruct (bear_trap_signal (E := B64.scenario) "B" B64.fresh intraday_B
                window_A (mkBar 99.5 99.6 98.3 99.0 15000)
                eq_refl eq_refl eq_refl)
      as (signals & self' & lz & score & mean & Hrun & _ & _ & _ & Hmean & _
          & _ & _ & HB).
    assert (Hm : mean = 8000%float) by (rewrite Hmean; vm_compute; reflexivity).
    destruct (HB eq_refl ltac:(vm_compute; reflexivity)
                ltac:(vm_compute; reflexivity) ltac:(vm_compute; reflexivity) Hm)
      as (s & Hs & Hstop).
    exists s. vm_compute in Hrun. inversion Hrun; subst. simpl in Hs.
    inversion Hs; subst. repeat split.
  - vm_compute. reflexivity.
  - eexists. split; [vm_compute; reflexivity | reflexivity].
Defined.

(** ** The bull trap *)

(** C5, amended.  The detector returns one signal per trap that fires, so
    none, one or two; a bull-trap signal is among them exactly when the
    latest high is at least the recent high times 0.995, the latest close
    is below the recent high and the latest volume is above the mean
    intraday volume times 1.8 (binary64 products), whatever the bear-trap
    test says; such a signal carries the close, the recent high times 1.005
    and the vwap, each rounded to two decimals, and the confidence
    [min(90, score * 100)] of the upward score. *)
Theorem bull_trap_signal `{E : B64.Externals} (ticker : string)
    (self : B64.StopHunterVS) (intraday data : DataFrame) (current : Bar) :
  B64.get_data ticker "1d" "5m" = Some intraday ->
  B64.get_data ticker "20d" "1d" = Some data ->
  last intraday = Some current ->
  exists signals self' lz score mean,
    B64.detect_stop_hunt ticker self = (Ok signals, self')
    /\ fst (B64.identify_liquidity_pools ticker self) = Ok (Some lz)
    /\ B64.recent_high lz = B64.series_max (B64.col High data)
    /\ B64._calculate_confidence intraday "up" = Ok score
    /\ mean = (B64.series_sum (B64.col Volume intraday)
               / B64.of_nat (length intraday))%float
    /\ length signals
       = ((if B64.bear_trap_fires current lz intraday then 1 else 0)
          + (if B64.bull_trap_fires current lz intraday then 1 else 0))%nat
    /\ (length signals <= 2)%nat
    /\ ((exists s, s ∈ signals /\ B64.type s = bull_trap)
        <-> (B64.recent_high lz * 0.995 <=? B64.of_Q (High current))%float
            = true
            /\ (B64.of_Q (Close current) <? B64.recent_high lz)%float = true
            /\ (mean * 1.8 <? B64.of_Q (Volume current))%float = true)
    /\ (forall s, s ∈ signals -> B64.type s = bull_trap ->
          B64.entry s = B64.round2 (B64.of_Q (Close current))
          /\ B64.stop s = B64.round2 (B64.recent_high lz * 1.005)%float
          /\ B64.target s = B64.round2 (B64.vwap lz)
          /\ B64.confidence s = B64.py_min 90 (score * 100)%float)
    /\ (length (List.filter B64.is_bull signals) <= 1)%nat.
Proof.
  intros Hi Hd Hl.
  destruct (detect_run64 ticker self _ _ _ Hi Hd Hl)
    as (down & up & Hdn & Hup & Hrun).
  eexists _, _, (B64.zone_of data), up, _.
  split; [exact Hrun |]. split; [now rewrite (identify_run64 _ _ _ Hd) |].
  split; [reflexivity |]. split; [exact Hup |]. split; [reflexivity |].
  assert (Hfires :
    B64.bull_trap_fires current (B64.zone_of data) intraday = true
    <-> (B64.recent_high (B64.zone_of data) * 0.995
         <=? B64.of_Q (High current))%float = true
        /\ (B64.of_Q (Close current)
            <? B64.recent_high (B64.zone_of data))%float = true
        /\ (B64.series_sum (B64.col Volume intraday)
            / B64.of_nat (length intraday) * 1.8
            <? B64.of_Q (Volume current))%float = true).
  { unfold B64.bull_trap_fires, B64.series_mean, B64.col.
    rewrite !andb_true_iff, length_map. tauto. }
  split; [| split; [| split; [| split]]].
  - by_traps64; reflexivity.
  - by_traps64; simpl; lia.
  - rewrite <- Hfires. split.
    + intros (s & Hin & Hty). apply signals_cases64 in Hin.
      destruct Hin as [[_ ->] | [Hb ->]]; [discriminate | exact Hb].
    + intros Hb. exists (B64.bull_signal current (B64.zone_of data) up).
      split; [| reflexivity]. apply signals_cases64. now right.
  - intros s Hin Hty. apply signals_cases64 in Hin.
    destruct Hin as [[_ ->] | [_ ->]]; [discriminate |].
    repeat split.
  - by_traps64; simpl; lia.
Qed.

(** One bar springs both traps over the narrow range of "BOTH"; with the
    recent high at 6.2 a latest high of 6.169 springs none, the binary64
    product of 6.2 and 0.995 being above 6.169. *)
Lemma bull_trap_signal_both :
  (exists s1 s2,
     fst (B64.detect_stop_hunt (E := B64.scenario) "BOTH" B64.fresh)
     = Ok [s1; s2]
     /\ B64.type s1 = bear_trap /\ B64.type s2 = bull_trap)
  /\ fst (B64.detect_stop_hunt (E := B64.scenario) "EDGE_UP" B64.fresh)
     = Ok [].
Proof.
  split; [| vm_compute; reflexivity].
  destruct (bull_trap_signal (E := B64.scenario) "BOTH" B64.fresh
              intraday_both narrow_window (mkBar 100.3 100.4 100.2 100.3 15000)
              eq_refl eq_refl eq_refl)
    as (signals & self' & lz & score & mean & Hrun & _).
  vm_compute in Hrun. inversion Hrun; subst.
  eexists _, _. split; [reflexivity |]. split; reflexivity.
Defined.

(** C5 as stated fails: over "BULL" the bull trap fires on a close of
    106.123 under a recent high of 107.2, and the signal carries the rounded
    prices 106.12 and 107.74, not the close and 1.005 times the recent
    high. *)
Lemma bull_trap_prices_are_rounded :
  let current := mkBar 106.2 106.9 106.0 106.123 15000 in
  exists s lz,
    last intraday_bull = Some current
    /\ fst (B64.identify_liquidity_pools (E := B64.scenario) "BULL" B64.fresh)
       = Ok (Some lz)
    /\ fst (B64.detect_stop_hunt (E := B64.scenario) "BULL" B64.fresh)
       = Ok [s]
    /\ B64.type s = bull_trap
    /\ B64.entry s = 106.12%float
    /\ B64.stop s = 107.74%float
    /\ (B64.entry s <? B64.of_Q (Close current))%float = true
    /\ (B64.recent_high lz * 1.005 <? B64.stop s)%float = true.
Proof.
  eexists _, _. split; [reflexivity |]. split; [reflexivity |].
  split; [vm_compute; reflexivity |]. split; [reflexivity |].
  split; [vm_compute; reflexivity |]. split; [vm_compute; reflexivity |].
  split; vm_compute; reflexivity.
Qed.

(** ** The confidence cap *)

Lemma count_if_le_length (p : float -> bool) (a : list float) :
  (count_if p a <= length a)%nat.
Proof. unfold count_if. apply List.filter_length_le. Qed.

Lemma flt_fle (x y : float) : flt x y = true -> fle x y = true.
Proof.
  destruct x as [a | | |], y as [b | | |]; simpl; try congruence.
  rewrite Qltb_lt, Qle_bool_iff. apply Qlt_le_weak.
Qed.

Lemma count_if_mono (p q : float -> bool) (a : list float) :
  (forall x, p x = true -> q x = true) ->
  (count_if p a <= count_if q a)%nat.
Proof.
  intros H. unfold count_if. induction a as [| x a IH]; simpl; [lia |].
  destruct (p x) eqn:Hp.
  - rewrite (H _ Hp). simpl. lia.
  - destruct (q x); simpl; lia.
Qed.

Lemma Qnat_le (m n : nat) : (m <= n)%nat -> Qnat m <= Qnat n.
Proof. intros H. unfold Qnat. rewrite <- Zle_Qle. lia. Qed.

Lemma Qnat_pos (n : nat) : (0 < n)%nat -> 0 < Qnat n.
Proof.
  intros H. unfold Qnat. change 0 with (inject_Z 0). rewrite <- Zlt_Qlt. lia.
Qed.

Lemma Qnat_plus (m n : nat) : Qnat (m + n) == Qnat m + Qnat n.
Proof. unfold Qnat. rewrite Nat2Z.inj_add, inject_Z_plus. reflexivity. Qed.

(** scipy's percentile is a percentile. *)
Lemma scipy_percentile (a : list float) (score : float) :
  percentile (scipy_percentileofscore a score).
Proof.
  unfold scipy_percentileofscore.
  destruct (existsb is_nan a || is_nan score); [now left |].
  destruct (length a) as [| n] eqn:Hn; [now left |].
  right. eexists. split; [reflexivity |].
  set (left := count_if (fun x => flt x score) a).
  set (right := count_if (fun x => fle x score) a).
  assert (Hlr : (left <= right)%nat)
    by (apply count_if_mono; intros x; apply flt_fle).
  assert (Hrn : (right <= S n)%nat)
    by (rewrite <- Hn; apply count_if_le_length).
  set (k := (left + right + (if Nat.ltb left right then 1 else 0))%nat).
  assert (Hk : (k <= 2 * S n)%nat).
  { unfold k. destruct (Nat.ltb_spec left right); lia. }
  pose proof (Qnat_pos (S n) ltac:(lia)) as Hpos.
  pose proof (Qnat_le _ _ Hk) as Hk'.
  pose proof (Qnat_le 0 k ltac:(lia)) as Hk0.
  replace (2 * S n)%nat with (S n + S n)%nat in Hk' by lia.
  rewrite Qnat_plus in Hk'. change (Qnat 0) with 0 in Hk0.
  assert (Heq : Qnat k * (50 / Qnat (S n)) == (Qnat k * 50) / Qnat (S n)).
  { field. lra. }
  rewrite Heq. split.
  - apply Qle_shift_div_l; [exact Hpos | lra].
  - apply Qle_shift_div_r; [exact Hpos | lra].
Qed.

(** The cap applied to a fraction of a percentile. *)
Lemma capped_down (p : float) :
  percentile p ->
  exists c,
    py_min (Finite 90) (fmul (fdiv p (Finite 100)) (Finite 100)) = Finite c
    /\ 0 <= c <= 90.
Proof.
  intros [-> | (q & -> & Hq)].
  - exists 90. split; [reflexivity | lra].
  - unfold py_min. simpl.
    destruct (Qltb (q / 100 * 100) 90) eqn:Hlt.
    + eexists. split; [reflexivity |]. apply Qltb_lt in Hlt.
      assert (q / 100 * 100 == q) by (field; lra). lra.
    + exists 90. split; [reflexivity | lra].
Qed.

Lemma capped_up (p : float) :
  percentile p ->
  exists c,
    py_min (Finite 90)
      (fmul (fsub (Finite 1) (fdiv p (Finite 100))) (Finite 100)) = Finite c
    /\ 0 <= c <= 90.
Proof.
  intros [-> | (q & -> & Hq)].
  - exists 90. split; [reflexivity | lra].
  - unfold py_min. simpl.
    destruct (Qltb ((1 + - (q / 100)) * 100) 90) eqn:Hlt.
    + eexists. split; [reflexivity |]. apply Qltb_lt in Hlt.
      assert ((1 + - (q / 100)) * 100 == 100 - q) by (field; lra). lra.
    + exists 90. split; [reflexivity | lra].
Qed.

(** C7.  Whenever [percentileofscore] returns a percentile (a number from 0
    to 100, or NaN), every signal of the detector has a confidence from 0 to
    90. *)
Theorem confidence_capped `{E : Externals} (ticker : string)
    (self self' : StopHunterVS) (signals : list Signal) (s : Signal) :
  (forall a score, percentile (percentileofscore a score)) ->
  detect_stop_hunt ticker self = (Ok signals, self') ->
  s ∈ signals ->
  exists c, confidence s = Finite c /\ 0 <= c <= 90.
Proof.
  intros Hp Hrun Hin.
  destruct (get_data ticker "1d" "5m") as [intraday |] eqn:Hi.
  2:{ rewrite (detect_no_intraday _ _ Hi) in Hrun. inversion Hrun; subst.
      inversion Hin. }
  destruct (get_data ticker "20d" "1d") as [data |] eqn:Hd.
  2:{ rewrite (detect_no_zone _ _ Hd) in Hrun. inversion Hrun; subst.
      inversion Hin. }
  pose proof (get_data_nonempty _ _ _ _ Hi) as Hne.
  destruct (iloc_last_nonempty intraday Hne) as (current & Hl & _).
  destruct (confidence_run intraday Hne) as (latest & _ & Hdown & Hup).
  destruct (detect_run ticker self _ _ _ Hi Hd Hl)
    as (down & up & Hdn & Hu & Hrun').
  rewrite Hrun' in Hrun. inversion Hrun; subst. clear Hrun.
  rewrite Hdown in Hdn. rewrite Hup in Hu. inversion Hdn. inversion Hu. subst.
  apply signals_cases in Hin. destruct Hin as [[_ ->] | [_ ->]]; simpl.
  - apply capped_down, Hp.
  - apply capped_up, Hp.
Qed.

(** Both signals of "BOTH" stay under the cap. *)
Lemma confidence_capped_both :
  exists s1 s2 c1 c2,
    fst (detect_stop_hunt (E := scenario) "BOTH" fresh) = Ok [s1; s2]
    /\ confidence s1 = Finite c1 /\ 0 <= c1 <= 90
    /\ confidence s2 = Finite c2 /\ 0 <= c2 <= 90.
Proof.
  destruct (detect_stop_hunt (E := scenario) "BOTH" fresh)
    as [[[| s1 [| s2 [| s3 r]]] | e] self'] eqn:Hrun;
    try (vm_compute in Hrun; discriminate).
  destruct (confidence_capped (E := scenario) "BOTH" fresh self' [s1; s2] s1
              scipy_percentile Hrun ltac:(apply list_elem_of_In; now left))
    as (c1 & Hc1 & Hr1).
  destruct (confidence_capped (E := scenario) "BOTH" fresh self' [s1; s2] s2
              scipy_percentile Hrun
              ltac:(apply list_elem_of_In; right; now left))
    as (c2 & Hc2 & Hr2).
  exists s1, s2, c1, c2. repeat split; try assumption; apply Hr1 || apply Hr2.
Defined.

(** ** The volume-weighted average price *)

Lemma total_ext (f g : Bar -> Q) (df : DataFrame) :
  (forall b, In b df -> f b == g b) -> total f df == total g df.
Proof.
  induction df as [| b r IH]; intros H; simpl; [reflexivity |].
  rewrite (H b (or_introl eq_refl)), IH; [reflexivity |].
  intros b' Hb'. apply H. now right.
Qed.


Lemma total_const (w : Q) (df : DataFrame) :
  total (fun _ => w) df == w * Qnat (length df).
Proof.
  induction df as [| b r IH]; simpl length; simpl total.
  - change (Qnat 0) with 0. lra.
  - rewrite IH. change (S (length r)) with (1 + length r)%nat.
    rewrite Qnat_plus. change (Qnat 1) with 1. lra.
Qed.



Lemma vwap_numerator (df : DataFrame) :
  series_sum (map (fun b => Volume b * (High b + Low b + Close b) / 3) df)
  == total (fun b => Volume b * typical_price b) df.
Proof.
  rewrite series_sum_map. apply total_ext. intros b _.
  unfold typical_price. field.
Qed.




(** ** The scorer on short series *)

(** C3, amended.  The scorer checks nothing about the length of the series.
    On an empty series it fails with [IndexError], for want of a latest
    return; on every other series it returns a value.  On a single bar the
    only return is NaN and the value is the percentile of NaN among [[NaN]]
    over 100, or one minus it. *)
Theorem confidence_on_short_series `{E : Externals} (df : DataFrame)
    (direction : string) :
  (df = [] -> _calculate_confidence df direction = Raise IndexError)
  /\ (df <> [] -> exists score, _calculate_confidence df direction = Ok score)
  /\ (forall b, df = [b] ->
        _calculate_confidence df direction
        = Ok (if String.eqb direction "down"
              then fdiv (percentileofscore [NaN] NaN) (Finite 100)
              else fsub (Finite 1)
                     (fdiv (percentileofscore [NaN] NaN) (Finite 100)))).
Proof.
  split; [| split].
  - intros ->. reflexivity.
  - intros Hne.
    destruct (iloc_last_nonempty (returns_of df)) as (latest & _ & Hi);
      [unfold returns_of; auto with frames |].
    unfold _calculate_confidence. fold (returns_of df). rewrite Hi. simpl.
    destruct (String.eqb direction "down"); eauto.
  - intros b ->. unfold _calculate_confidence. simpl.
    destruct (String.eqb direction "down"); reflexivity.
Qed.

Lemma confidence_on_short_series_cases :
  _calculate_confidence (E := scenario) [] "down" = Raise IndexError
  /\ (exists score,
        _calculate_confidence (E := scenario) window_A "up" = Ok score)
  /\ _calculate_confidence (E := scenario) tight_window "down"
     = Ok (fdiv (scipy_percentileofscore [NaN] NaN) (Finite 100)).
Proof.
  destruct (confidence_on_short_series (E := scenario) [] "down") as (H1 & _ & _).
  destruct (confidence_on_short_series (E := scenario) window_A "up") as (_ & H2 & _).
  destruct (confidence_on_short_series (E := scenario) tight_window "down")
    as (_ & _ & H3).
  split; [apply H1; reflexivity |].
  split; [apply H2; discriminate |].
  apply (H3 _ eq_refl).
Defined.

(** C3 as stated fails: a series of one bar is scored without any error,
    the score is NaN, and the cap of the detector turns it into 90. *)
Lemma one_bar_is_scored :
  length tight_window = 1%nat
  /\ _calculate_confidence (E := scenario) tight_window "down" = Ok NaN
  /\ _calculate_confidence (E := scenario) tight_window "up" = Ok NaN
  /\ py_min (Finite 90) (fmul NaN (Finite 100)) = Finite 90.
Proof. repeat split. Qed.

(** ** State *)

(** C10, amended.  The signals of a detection depend on the ticker and the
    feed only, never on the state of the analyzer: two runs return the same
    signals whatever the cache holds.  The run does write the cache: with
    intraday and daily bars at hand the entry of the ticker becomes the
    zone just computed; the entries of the other tickers stay, and without
    bars the state is untouched. *)
Theorem detect_reads_no_state `{E : Externals} (ticker : string)
    (self other : StopHunterVS) :
  fst (detect_stop_hunt ticker self) = fst (detect_stop_hunt ticker other)
  /\ (forall t, t <> ticker ->
        liquidity_zones (snd (detect_stop_hunt ticker self)) !! t
        = liquidity_zones self !! t)
  /\ (forall intraday data,
        get_data ticker "1d" "5m" = Some intraday ->
        get_data ticker "20d" "1d" = Some data ->
        liquidity_zones (snd (detect_stop_hunt ticker self)) !! ticker
        = Some (zone_of data))
  /\ (get_data ticker "1d" "5m" = None \/ get_data ticker "20d" "1d" = None ->
      snd (detect_stop_hunt ticker self) = self).
Proof.
  destruct (detect_total ticker) as (signals & Hall).
  destruct (Hall self) as (self' & Hrun & Hst).
  destruct (Hall other) as (other' & Hrun' & _).
  rewrite Hrun, Hrun'. simpl. split; [reflexivity |]. split; [| split].
  - intros t Hne. destruct Hst as [-> | (data & _ & ->)]; [reflexivity |].
    simpl. now rewrite lookup_insert_ne.
  - intros intraday data Hi Hd.
    destruct (iloc_last_nonempty intraday (get_data_nonempty _ _ _ _ Hi))
      as (current & Hl & _).
    destruct (detect_run ticker self _ _ _ Hi Hd Hl) as (d & u & _ & _ & Hr).
    rewrite Hr in Hrun. inversion Hrun; subst. simpl.
    apply lookup_insert_eq.
  - intros [Hn | Hn].
    + rewrite (detect_no_intraday _ _ Hn) in Hrun. now inversion Hrun.
    + rewrite (detect_no_zone _ _ Hn) in Hrun. now inversion Hrun.
Qed.

Lemma detect_reads_no_state_cases :
  fst (detect_stop_hunt (E := scenario) "B" fresh)
  = fst (detect_stop_hunt (E := scenario) "B"
           (mkSelf (<["B" := zone_of flat_window]> ∅)))
  /\ liquidity_zones (snd (detect_stop_hunt (E := scenario) "B" fresh)) !! "B"
     = Some (zone_of window_A)
  /\ snd (detect_stop_hunt (E := scenario) "DOWN" fresh) = fresh.
Proof.
  destruct (detect_reads_no_state (E := scenario) "B" fresh
              (mkSelf (<["B" := zone_of flat_window]> ∅)))
    as (H1 & _ & H3 & _).
  destruct (detect_reads_no_state (E := scenario) "DOWN" fresh fresh)
    as (_ & _ & _ & H4).
  split; [exact H1 |].
  split; [apply (H3 intraday_B window_A); reflexivity |].
  apply H4. left. reflexivity.
Defined.

(** C10 as stated fails: a detection over "A" finds no signal and still
    leaves a zone for "A" in a cache that was empty. *)
Lemma detect_writes_the_cache :
  fst (detect_stop_hunt (E := scenario) "A" fresh) = Ok []
  /\ liquidity_zones fresh !! "A" = None
  /\ liquidity_zones (snd (detect_stop_hunt (E := scenario) "A" fresh)) !! "A"
     = Some (zone_of window_A)
  /\ snd (detect_stop_hunt (E := scenario) "A" fresh) <> fresh.
Proof.
  split; [vm_compute; reflexivity |]. split; [reflexivity |].
  assert (H : liquidity_zones
                (snd (detect_stop_hunt (E := scenario) "A" fresh)) !! "A"
              = Some (zone_of window_A)).
  { destruct (detect_run (E := scenario) "A" fresh window_A window_A
                (mkBar 100 106 99 105 2000) eq_refl eq_refl eq_refl)
      as (d & u & _ & _ & Hr).
    rewrite Hr. simpl. apply lookup_insert_eq. }
  split; [exact H |]. intros Heq. rewrite Heq in H. discriminate.
Qed.

(** ** The scan *)

Section Scan.
Context `{E : Externals}.

Lemma detect_signals_of (ticker : string) (self : StopHunterVS) :
  exists self', detect_stop_hunt ticker self = (Ok (signals_of ticker), self').
Proof.
  destruct (detect_total ticker) as (signals & Hall).
  destruct (Hall self) as (self' & Hrun & _).
  destruct (Hall fresh) as (f' & Hf & _).
  unfold signals_of. rewrite Hf. simpl. eauto.
Qed.

Lemma scan_loop_run (tickers : list string)
    (acc : gmap string (list Signal)) (self : StopHunterVS) :
  exists results self',
    scan_loop tickers acc self = (Ok results, self')
    /\ forall t signals,
         results !! t = Some signals
         <-> (t ∈ tickers /\ signals = signals_of t /\ signals <> [])
             \/ ((t ∉ tickers \/ signals_of t = []) /\ acc !! t = Some signals).
Proof.
  revert acc self. induction tickers as [| ticker rest IH]; intros acc self.
  - exists acc, self. split; [reflexivity |]. intros t signals. split.
    + intros H. right. split; [left; apply not_elem_of_nil | exact H].
    + intros [(H & _) | (_ & H)]; [inversion H | exact H].
  - destruct (detect_signals_of ticker self) as (self1 & Hrun).
    simpl. unfold bind at 1. rewrite Hrun.
    destruct (IH (if signals_of ticker is [] then acc
                  else <[ticker := signals_of ticker]> acc) self1)
      as (results & self' & Hloop & Hres).
    exists results, self'. split; [exact Hloop |].
    intros t signals. rewrite Hres, not_elem_of_cons, elem_of_cons.
    destruct (decide (t = ticker)) as [-> | Hne].
    + destruct (signals_of ticker) as [| s0 l0] eqn:Hs.
      * split.
        -- intros [(_ & -> & Hc) | (_ & Ha)]; [congruence |].
           right. split; [now right | exact Ha].
        -- intros [(_ & -> & Hc) | (_ & Ha)]; [congruence |].
           right. split; [now right | exact Ha].
      * rewrite lookup_insert_eq. split.
        -- intros [(_ & -> & _) | (_ & Ha)].
           ++ left. split; [now left | split; [reflexivity | discriminate]].
           ++ inversion Ha; subst. left.
              split; [now left | split; [reflexivity | discriminate]].
        -- intros [(_ & -> & _) | ([(Hc & _) | Hc] & _)];
             [| congruence | discriminate].
           destruct (decide (ticker ∈ rest)).
           ++ left. split; [assumption | split; [reflexivity | discriminate]].
           ++ right. split; [now left | reflexivity].
    + assert (Hacc : (if signals_of ticker is [] then acc
                      else <[ticker := signals_of ticker]> acc) !! t = acc !! t).
      { destruct (signals_of ticker); [reflexivity |].
        apply lookup_insert_ne. congruence. }
      rewrite Hacc. split.
      * intros [(Hin & H) | ([Hn | Hn] & Ha)].
        -- left. split; [now right | exact H].
        -- right. split; [left; split; [exact Hne | exact Hn] | exact Ha].
        -- right. split; [now right | exact Ha].
      * intros [([Heq | Hin] & H) | ([(_ & Hn) | Hn] & Ha)].
        -- contradiction.
        -- left. split; assumption.
        -- right. split; [now left | exact Ha].
        -- right. split; [now right | exact Ha].
Qed.

End Scan.

(** C6.  The scan returns a mapping, whatever the feed does: a symbol maps
    to signals exactly when it is among the scanned symbols and its signal
    sequence, those signals, is not empty.  A fetch that raises is caught by
    [get_data]; a symbol without intraday or daily bars gets the empty
    signal sequence and no entry, and the scan goes on with the symbols
    after it.  In scenario C ("A" without signal, "B" with one bear trap)
    the mapping holds the key "B" alone, with one signal. *)
Theorem scan_market_collects `{E : Externals} (tickers : list string)
    (self : StopHunterVS) :
  exists results self',
    scan_market tickers self = (Ok results, self')
    /\ (forall t signals,
          results !! t = Some signals
          <-> t ∈ tickers
              /\ fst (detect_stop_hunt t self) = Ok signals
              /\ signals <> [])
    /\ (forall t period interval e,
          yf_download t period interval = Raise e ->
          get_data t period interval = None)
    /\ (forall t,
          get_data t "1d" "5m" = None \/ get_data t "20d" "1d" = None ->
          detect_stop_hunt t self = (Ok [], self) /\ results !! t = None)
    /\ (forall t rest,
          tickers = t :: rest ->
          get_data t "1d" "5m" = None \/ get_data t "20d" "1d" = None ->
          scan_market tickers self = scan_market rest self)
    /\ exists s,
         fst (scan_market (E := scenario) ["A"; "B"]%string fresh)
         = Ok {[ "B"%string := [s] ]}
         /\ type s = bear_trap.
Proof.
  destruct (scan_loop_run tickers ∅ self) as (results & self' & Hrun & Hres).
  exists results, self'. split; [exact Hrun |].
  assert (Hiff : forall t signals,
            results !! t = Some signals
            <-> t ∈ tickers
                /\ fst (detect_stop_hunt t self) = Ok signals
                /\ signals <> []).
  { intros t signals. rewrite Hres.
    destruct (detect_signals_of t self) as (s' & Hs). rewrite Hs. simpl.
    split.
    - intros [(Hin & -> & Hne) | (_ & Hc)]; [auto | now rewrite lookup_empty in Hc].
    - intros (Hin & Heq & Hne). inversion Heq; subst. left. auto. }
  assert (Hnone : forall t st,
            get_data t "1d" "5m" = None \/ get_data t "20d" "1d" = None ->
            detect_stop_hunt t st = (Ok [], st)).
  { intros t st [H | H]; [now apply detect_no_intraday | now apply detect_no_zone]. }
  split; [exact Hiff |]. split; [apply get_data_raise |]. split; [| split].
  - intros t Hfail. split; [now apply Hnone |].
    destruct (results !! t) as [signals |] eqn:Hl; [| reflexivity].
    apply Hiff in Hl. destruct Hl as (_ & Hd & Hne). exfalso. apply Hne.
    rewrite (Hnone t self Hfail) in Hd. now inversion Hd.
  - intros t rest -> Hfail. unfold scan_market. simpl. unfold bind at 1.
    now rewrite (Hnone t self Hfail).
  - eexists. split; [vm_compute; reflexivity | reflexivity].
Qed.

(** A scan over a failing feed: "DOWN" raises, "ZZZ" has no bars, and the
    scan still reports "B". *)
Lemma scan_market_collects_over_failures :
  exists s,
    fst (scan_market (E := scenario) ["DOWN"; "A"; "ZZZ"; "B"]%string fresh)
    = Ok {[ "B"%string := [s] ]}
    /\ type s = bear_trap /\ stop s = Finite 97.51.
Proof.
  destruct (scan_market_collects (E := scenario)
              ["DOWN"; "A"; "ZZZ"; "B"]%string fresh)
    as (results & self' & Hrun & _ & _ & _ & Hskip & _).
  rewrite (Hskip "DOWN"%string ["A"; "ZZZ"; "B"]%string eq_refl
             (or_introl eq_refl)).
  eexists. split; [vm_compute; reflexivity |]. split; reflexivity.
Defined.

(** ** Sorting the bins *)

Lemma last_n_three {A} (l : list A) :
  (3 <= length l)%nat ->
  exists pre a b c, l = pre ++ [a; b; c] /\ last_n 3 l = [a; b; c].
Proof.
  intros Hlen. unfold last_n.
  pose proof (firstn_skipn (length l - 3) l) as Hsplit.
  pose proof (length_skipn (length l - 3) l) as Hk.
  destruct (skipn (length l - 3) l) as [| a [| b [| c [| d r]]]] eqn:Hs;
    simpl in Hk; try lia.
  exists (firstn (length l - 3) l), a, b, c. split; [now rewrite Hsplit | reflexivity].
Qed.

Lemma last_n_map {A B} (f : A -> B) (n : nat) (l : list A) :
  last_n n (map f l) = map f (last_n n l).
Proof. unfold last_n. now rewrite length_map, skipn_map. Qed.

Lemma in_combine_seq (v : list Q) (start : nat) (q : Q) (i : nat) :
  In (q, i) (combine v (seq start (length v)))
  <-> (start <= i)%nat /\ v !! (i - start)%nat = Some q.
Proof.
  revert start. induction v as [| x v IH]; intros start; simpl.
  - split; [tauto | intros (_ & H); discriminate].
  - rewrite IH. split.
    + intros [H | (Hle & Hl)].
      * inversion H; subst. rewrite Nat.sub_diag. auto.
      * split; [lia |]. replace (i - start)%nat with (S (i - S start)) by lia.
        exact Hl.
    + intros (Hle & Hl). destruct (i - start)%nat as [| k] eqn:Hk.
      * left. inversion Hl; subst. f_equal. lia.
      * right. split; [lia |]. replace (i - S start)%nat with k by lia.
        exact Hl.
Qed.

Lemma snd_combine_seq (v : list Q) (start : nat) :
  map snd (combine v (seq start (length v))) = seq start (length v).
Proof.
  revert start. induction v as [| x v IH]; intros start; simpl;
    [| rewrite IH]; reflexivity.
Qed.

Lemma strongly_sorted_app {A} (R : A -> A -> Prop) (l1 l2 : list A) :
  StronglySorted R (l1 ++ l2) ->
  StronglySorted R l2 /\ forall x y, In x l1 -> In y l2 -> R x y.
Proof.
  induction l1 as [| a l1 IH]; simpl; intros H.
  - split; [exact H | intros x y []].
  - apply StronglySorted_inv in H. destruct H as (Hs & Hall).
    destruct (IH Hs) as (H2 & Hx). split; [exact H2 |].
    intros x y [<- | Hin] Hy.
    + rewrite List.Forall_forall in Hall. apply Hall, in_or_app. now right.
    + now apply Hx.
Qed.

Lemma by_value_transitive : Transitive (fun x y => is_true (ByValue.leb x y)).
Proof.
  intros x y z. unfold is_true, ByValue.leb. rewrite !Qle_bool_iff.
  apply Qle_trans.
Qed.

(** The last three indices of [np.argsort]: three distinct positions whose
    values ascend and dominate the value at every other position. *)
Lemma argsort_top_three (v : list Q) :
  (3 <= length v)%nat ->
  exists i1 i2 i3 q1 q2 q3,
    last_n 3 (np_argsort v) = [i1; i2; i3]
    /\ NoDup [i1; i2; i3]
    /\ v !! i1 = Some q1 /\ v !! i2 = Some q2 /\ v !! i3 = Some q3
    /\ q1 <= q2 /\ q2 <= q3
    /\ forall j q, v !! j = Some q -> ~ In j [i1; i2; i3] -> q <= q1.
Proof.
  intros Hlen. unfold np_argsort.
  set (pairs := combine v (seq 0 (length v))).
  pose proof (ArgSort.Permuted_sort pairs) as Hperm.
  pose proof (ArgSort.StronglySorted_sort pairs by_value_transitive) as Hsort.
  assert (Hl : length (ArgSort.sort pairs) = length v).
  { rewrite <- (Permutation_length Hperm). unfold pairs.
    rewrite length_combine, length_seq. lia. }
  destruct (last_n_three (ArgSort.sort pairs)) as (pre & a & b & c & Hsplit & Hlast);
    [lia |].
  rewrite last_n_map, Hlast. rewrite Hsplit in Hsort, Hperm.
  assert (Hmem : forall q i, In (q, i) (pre ++ [a; b; c]) <-> v !! i = Some q).
  { intros q i. split.
    - intros Hin. apply (Permutation_in _ (Permutation_sym Hperm)) in Hin.
      apply in_combine_seq in Hin. now rewrite Nat.sub_0_r in Hin.
    - intros Hv. apply (Permutation_in _ Hperm), in_combine_seq.
      rewrite Nat.sub_0_r. split; [lia | exact Hv]. }
  assert (Hnd : NoDup (map snd (pre ++ [a; b; c]))).
  { assert (Hp : map snd pairs ≡ₚ map snd (pre ++ [a; b; c]))
      by now apply Permutation_map.
    rewrite <- Hp. unfold pairs. rewrite snd_combine_seq. apply NoDup_seq. }
  rewrite map_app in Hnd. simpl in Hnd.
  apply NoDup_app in Hnd. destruct Hnd as (_ & _ & Hnd).
  destruct (strongly_sorted_app _ _ _ Hsort) as (Hs3 & Hpre).
  apply StronglySorted_inv in Hs3. destruct Hs3 as (Hs2 & Hab).
  apply StronglySorted_inv in Hs2. destruct Hs2 as (_ & Hbc).
  rewrite List.Forall_forall in Hab, Hbc.
  destruct a as [q1 i1], b as [q2 i2], c as [q3 i3].
  exists i1, i2, i3, q1, q2, q3. simpl.
  split; [reflexivity |].
  split; [exact Hnd |].
  split; [apply Hmem, in_or_app; right; simpl; auto |].
  split; [apply Hmem, in_or_app; right; simpl; auto |].
  split; [apply Hmem, in_or_app; right; simpl; auto |].
  split. { apply Qle_bool_iff. apply (Hab (q2, i2)). simpl. auto. }
  split. { apply Qle_bool_iff. apply (Hbc (q3, i3)). simpl. auto. }
  intros j q Hv Hnot. apply Hmem in Hv. apply in_app_or in Hv.
  destruct Hv as [Hin | Hin].
  - apply Qle_bool_iff. apply (Hpre (q, j) (q1, i1) Hin). simpl. auto.
  - exfalso. apply Hnot. simpl in Hin.
    destruct Hin as [H | [H | [H | []]]]; inversion H; subst; auto.
Qed.

(** ** Edges and bins *)

Lemma linspace_20 (lo hi : Q) :
  np_linspace (Finite lo) (Finite hi) 20
  = map (fun i => Finite (edge_at lo hi i)) (seq 0 20).
Proof. reflexivity. Qed.

Lemma lookup_map_seq {A} (f : nat -> A) (start n i : nat) (x : A) :
  map f (seq start n) !! i = Some x <-> (i < n)%nat /\ x = f (start + i)%nat.
Proof.
  revert start i. induction n as [| n IH]; intros start i; simpl.
  - split; [discriminate | lia].
  - destruct i as [| i]; simpl.
    + rewrite Nat.add_0_r. split.
      * intros H. inversion H. split; [lia | reflexivity].
      * intros (_ & ->). reflexivity.
    + rewrite IH. replace (S start + i)%nat with (start + S i)%nat by lia.
      split; intros (H1 & H2); split; auto; lia.
Qed.

Lemma edge_at_bin_edge (lo hi : Q) (i : nat) :
  (i <= 19)%nat -> edge_at lo hi i == bin_edge lo hi 19 i.
Proof.
  intros Hi. unfold edge_at, bin_edge. destruct (Nat.ltb_spec i 19).
  - change (Qnat 19) with 19. field.
  - replace i with 19%nat by lia. change (Qnat 19) with 19. field.
Qed.

Lemma bin_edge_step (lo hi : Q) (i : nat) :
  lo <= hi -> bin_edge lo hi 19 i <= bin_edge lo hi 19 (S i).
Proof.
  intros H. unfold bin_edge. change (S i) with (1 + i)%nat.
  rewrite Qnat_plus. change (Qnat 1) with 1. change (Qnat 19) with 19.
  assert (0 <= (hi - lo) / 19) by (apply Qle_shift_div_l; lra).
  lra.
Qed.

Lemma bin_edge_range (lo hi : Q) (i : nat) :
  lo <= hi -> (i <= 19)%nat -> lo <= bin_edge lo hi 19 i <= hi.
Proof.
  intros H Hi. unfold bin_edge. change (Qnat 19) with 19.
  assert (Hs : 0 <= (hi - lo) / 19) by (apply Qle_shift_div_l; lra).
  assert (Hn : 0 <= Qnat i) by (apply (Qnat_le 0); lia).
  assert (Hm : Qnat i <= 19) by (apply (Qnat_le i 19); lia).
  assert (Hw : 19 * ((hi - lo) / 19) == hi - lo) by field.
  set (s := (hi - lo) / 19) in *. split; nra.
Qed.

Lemma monotonic_finite (qs : list Q) :
  monotonic (map Finite qs) = true
  <-> forall i a b, qs !! i = Some a -> qs !! S i = Some b -> a <= b.
Proof.
  induction qs as [| x [| y r] IH].
  - split; [intros _ i a b H; discriminate | reflexivity].
  - split; [intros _ [| i] a b H1 H2; discriminate | reflexivity].
  - change (monotonic (map Finite (x :: y :: r)))
      with (negb (Qltb y x) && monotonic (map Finite (y :: r))).
    unfold Qltb. rewrite negb_involutive, andb_true_iff, Qle_bool_iff, IH.
    split.
    + intros (Hxy & Hr) [| i] a b H1 H2.
      * inversion H1; inversion H2; subst. exact Hxy.
      * apply (Hr i); assumption.
    + intros H. split.
      * apply (H 0%nat); reflexivity.
      * intros i a b H1 H2. apply (H (S i)); assumption.
Qed.

Lemma linspace_monotonic (lo hi : Q) :
  monotonic (np_linspace (Finite lo) (Finite hi) 20) = true <-> lo <= hi.
Proof.
  rewrite linspace_20, <- (map_map (edge_at lo hi) Finite), monotonic_finite.
  split.
  - intros H. specialize (H 0%nat _ _ eq_refl eq_refl).
    unfold edge_at in H. simpl in H.
    change (Qnat 19) with 19 in H. change (Qnat 0) with 0 in H.
    change (Qnat 1) with 1 in H.
    assert (Hw : 19 * ((hi + - lo) / 19) == hi - lo) by field.
    set (s := (hi + - lo) / 19) in *. lra.
  - intros Hle i a b Ha Hb.
    apply lookup_map_seq in Ha, Hb. destruct Ha as (_ & ->), Hb as (Hb & ->).
    simpl. rewrite !edge_at_bin_edge by lia. now apply bin_edge_step.
Qed.

Lemma in_bin_falls (lo hi : Q) (i : nat) (x : Q) :
  (i < 19)%nat ->
  in_bin (np_linspace (Finite lo) (Finite hi) 20) i x
  = falls_in_bin lo hi 19 i x.
Proof.
  intros Hi. unfold in_bin, falls_in_bin.
  assert (H1 : np_linspace (Finite lo) (Finite hi) 20 !! i
               = Some (Finite (edge_at lo hi i)))
    by (rewrite linspace_20; apply lookup_map_seq; split; [lia | reflexivity]).
  assert (H2 : np_linspace (Finite lo) (Finite hi) 20 !! S i
               = Some (Finite (edge_at lo hi (S i))))
    by (rewrite linspace_20; apply lookup_map_seq; split; [lia | reflexivity]).
  rewrite H1, H2. change (length (np_linspace (Finite lo) (Finite hi) 20)) with 20%nat.
  change (Nat.eqb (S (S i)) 20) with (Nat.eqb (S i) 19). simpl fle. simpl flt.
  rewrite (Qle_bool_comp _ (bin_edge lo hi 19 i) x x
             (edge_at_bin_edge lo hi i ltac:(lia)) (Qeq_refl x)).
  rewrite (Qle_bool_comp x x _ (bin_edge lo hi 19 (S i)) (Qeq_refl x)
             (edge_at_bin_edge lo hi (S i) ltac:(lia))).
  rewrite (Qltb_comp x x _ (bin_edge lo hi 19 (S i)) (Qeq_refl x)
             (edge_at_bin_edge lo hi (S i) ltac:(lia))).
  reflexivity.
Qed.

Lemma weight_in_frame (df : DataFrame) (p : Q -> bool) :
  weight_in (map Close df) (map Volume df) p
  = series_sum (map Volume (List.filter (fun b => p (Close b)) df)).
Proof.
  unfold weight_in. f_equal. induction df as [| b r IH]; simpl; [reflexivity |].
  destruct (p (Close b)); simpl; now rewrite IH.
Qed.

(** The histogram over the 20 edges holds the volume of each of 19 bins. *)
Lemma histogram_run (df : DataFrame) (lo hi : Q) :
  lo <= hi ->
  np_histogram (map Close df) (np_linspace (Finite lo) (Finite hi) 20)
    (map Volume df)
  = Ok (map (bin_volume df lo hi 19) (seq 0 19),
        np_linspace (Finite lo) (Finite hi) 20).
Proof.
  intros Hle. unfold np_histogram.
  rewrite (proj2 (linspace_monotonic lo hi) Hle).
  change (length (np_linspace (Finite lo) (Finite hi) 20) - 1)%nat with 19%nat.
  f_equal. f_equal. apply map_ext_in. intros i Hi. apply in_seq in Hi.
  rewrite weight_in_frame. unfold bin_volume. f_equal. f_equal.
  apply List.filter_ext. intros b. apply in_bin_falls. lia.
Qed.

Lemma histogram_raises (df : DataFrame) (lo hi : Q) :
  hi < lo ->
  np_histogram (map Close df) (np_linspace (Finite lo) (Finite hi) 20)
    (map Volume df)
  = Raise ValueError.
Proof.
  intros Hlt. unfold np_histogram.
  destruct (monotonic (np_linspace (Finite lo) (Finite hi) 20)) eqn:Hm;
    [| reflexivity].
  apply linspace_monotonic in Hm. lra.
Qed.

(** One run of the clustering over a window whose range is not inverted:
    three distinct bins out of 19, in ascending order of volume, every
    other bin no heavier than the first, reported by their lower edges. *)
Lemma clusters_run (df : DataFrame) (lo hi : Q) :
  series_min (map Low df) = Finite lo ->
  series_max (map High df) = Finite hi ->
  lo <= hi ->
  exists i1 i2 i3,
    NoDup [i1; i2; i3]
    /\ (i1 < 19)%nat /\ (i2 < 19)%nat /\ (i3 < 19)%nat
    /\ _find_volume_clusters df
       = [ round2 (Finite (bin_edge lo hi 19 i1));
           round2 (Finite (bin_edge lo hi 19 i2));
           round2 (Finite (bin_edge lo hi 19 i3)) ]
    /\ bin_volume df lo hi 19 i1 <= bin_volume df lo hi 19 i2
    /\ bin_volume df lo hi 19 i2 <= bin_volume df lo hi 19 i3
    /\ forall j, (j < 19)%nat -> ~ In j [i1; i2; i3] ->
         bin_volume df lo hi 19 j <= bin_volume df lo hi 19 i1.
Proof.
  intros Hlo Hhi Hle. unfold _find_volume_clusters.
  rewrite Hlo, Hhi, (histogram_run df lo hi Hle).
  cbv beta iota delta [rbind].
  destruct (argsort_top_three (map (bin_volume df lo hi 19) (seq 0 19)))
    as (i1 & i2 & i3 & q1 & q2 & q3 & Hlast & Hnd & H1 & H2 & H3 & H12 & H23 & Hrest).
  { rewrite length_map, length_seq. lia. }
  apply lookup_map_seq in H1, H2, H3.
  destruct H1 as (Hi1 & ->), H2 as (Hi2 & ->), H3 as (Hi3 & ->).
  exists i1, i2, i3. simpl in H12, H23.
  split; [exact Hnd |]. split; [exact Hi1 |]. split; [exact Hi2 |].
  split; [exact Hi3 |]. split; [| split; [exact H12 | split; [exact H23 |]]].
  - rewrite Hlast. rewrite linspace_20. cbn [take_at].
    assert (Hedge : forall i, (i < 19)%nat ->
              map (fun i => Finite (edge_at lo hi i)) (seq 0 20) !! i
              = Some (Finite (edge_at lo hi i))).
    { intros i Hi. apply lookup_map_seq. split; [lia | reflexivity]. }
    rewrite (Hedge i1 Hi1), (Hedge i2 Hi2), (Hedge i3 Hi3).
    simpl.
    rewrite (round2q_comp _ _ (edge_at_bin_edge lo hi i1 ltac:(lia))).
    rewrite (round2q_comp _ _ (edge_at_bin_edge lo hi i2 ltac:(lia))).
    rewrite (round2q_comp _ _ (edge_at_bin_edge lo hi i3 ltac:(lia))).
    reflexivity.
  - intros j Hj Hnot.
    apply (Hrest j); [| exact Hnot].
    apply lookup_map_seq. split; [exact Hj | reflexivity].
Qed.

Lemma clusters_inverted (df : DataFrame) (lo hi : Q) :
  series_min (map Low df) = Finite lo ->
  series_max (map High df) = Finite hi ->
  hi < lo ->
  _find_volume_clusters df = [].
Proof.
  intros Hlo Hhi Hlt. unfold _find_volume_clusters.
  now rewrite Hlo, Hhi, (histogram_raises df lo hi Hlt).
Qed.

(** ** Volume clusters *)

Lemma window_range (df : DataFrame) :
  df <> [] ->
  exists lo hi,
    series_min (map Low df) = Finite lo
    /\ series_max (map High df) = Finite hi
    /\ In lo (map Low df) /\ (forall b, In b df -> lo <= Low b)
    /\ In hi (map High df) /\ (forall b, In b df -> High b <= hi).
Proof.
  intros Hne.
  destruct (series_min_spec (map Low df)) as (lo & Hlo & Hin & Hall);
    [auto with frames |].
  destruct (series_max_spec (map High df)) as (hi & Hhi & Hin' & Hall');
    [auto with frames |].
  rewrite List.Forall_forall in Hall, Hall'.
  exists lo, hi. repeat split; auto.
  - intros b Hb. apply Hall, in_map, Hb.
  - intros b Hb. apply Hall', in_map, Hb.
Qed.

(** ** Volume clusters on binary64 *)

Lemma linspace64_20 (lo hi : B64.f64) :
  B64.np_linspace lo hi 20 = map (B64.edge_at lo hi) (seq 0 20).
Proof. reflexivity. Qed.

Lemma in_bin_falls64 (lo hi : B64.f64) (i : nat) (x : B64.f64) :
  (i < 19)%nat ->
  B64.in_bin (B64.np_linspace lo hi 20) i x = B64.falls_in_bin lo hi i x.
Proof.
  intros Hi. unfold B64.in_bin, B64.falls_in_bin.
  assert (H1 : B64.np_linspace lo hi 20 !! i = Some (B64.edge_at lo hi i))
    by (rewrite linspace64_20; apply lookup_map_seq; split; [lia | reflexivity]).
  assert (H2 : B64.np_linspace lo hi 20 !! S i
               = Some (B64.edge_at lo hi (S i)))
    by (rewrite linspace64_20; apply lookup_map_seq; split; [lia | reflexivity]).
  rewrite H1, H2.
  change (length (B64.np_linspace lo hi 20)) with 20%nat.
  reflexivity.
Qed.

Lemma weight_in_frame64 (df : DataFrame) (p : B64.f64 -> bool) :
  B64.weight_in (B64.col Close df) (map Volume df) p
  = fold_left Qplus
      (map Volume (List.filter (fun b => p (B64.of_Q (Close b))) df)) 0.
Proof.
  unfold B64.weight_in. f_equal. induction df as [| b r IH]; simpl; [reflexivity |].
  destruct (p (B64.of_Q (Close b))); simpl; now rewrite IH.
Qed.

(** The histogram over 20 accepted edges holds the volume of each of 19
    bins. *)
Lemma histogram_run64 (df : DataFrame) (lo hi : B64.f64) :
  B64.monotonic (B64.np_linspace lo hi 20) = true ->
  B64.np_histogram (B64.col Close df) (B64.np_linspace lo hi 20)
    (map Volume df)
  = Ok (map (B64.bin_volume df lo hi) (seq 0 19), B64.np_linspace lo hi 20).
Proof.
  intros Hm. unfold B64.np_histogram. rewrite Hm.
  change (length (B64.np_linspace lo hi 20) - 1)%nat with 19%nat.
  f_equal. f_equal. apply map_ext_in. intros i Hi. apply in_seq in Hi.
  rewrite weight_in_frame64. unfold B64.bin_volume. f_equal. f_equal.
  apply List.filter_ext. intros b. apply in_bin_falls64. lia.
Qed.

(** C2, amended.  The clustering lays 20 edges from the recent low to the
    recent high, edge [i] at [i] steps of a nineteenth of the range above
    the recent low (binary64 operations), the last one at the recent high:
    19 bins.  When an edge is above the next one the result is empty.
    Otherwise each bin holds the summed volume of the bars whose close is
    at or above its lower edge and below its upper edge (at or below, for
    the last bin); three distinct bins are selected, in ascending order of
    volume, every other bin no heavier than the first of them and none
    heavier than the last; the reported levels are the lower edges of the
    selected bins, rounded to two decimals, in that order. *)
Theorem volume_clusters_bins (df : DataFrame) :
  df <> [] ->
  B64.whole_volumes df ->
  let lo := B64.series_min (B64.col Low df) in
  let hi := B64.series_max (B64.col High df) in
  let edges := B64.np_linspace lo hi 20 in
  length edges = 20%nat
  /\ (forall i, (i < 20)%nat -> edges !! i = Some (B64.edge_at lo hi i))
  /\ (forall i, (i < 19)%nat ->
        let step := ((hi - lo) / B64.of_nat 19)%float in
        B64.edge_at lo hi i
        = ((if (step =? 0)%float
            then B64.of_nat i / B64.of_nat 19 * (hi - lo)
            else B64.of_nat i * step) + lo)%float)
  /\ B64.edge_at lo hi 19 = hi
  /\ (B64.monotonic edges = false -> B64._find_volume_clusters df = [])
  /\ (B64.monotonic edges = true ->
      exists hist i1 i2 i3,
        B64.np_histogram (B64.col Close df) edges (map Volume df)
        = Ok (hist, edges)
        /\ length hist = 19%nat
        /\ (forall i, (i < 19)%nat ->
              hist !! i = Some (B64.bin_volume df lo hi i))
        /\ NoDup [i1; i2; i3]
        /\ (i1 < 19)%nat /\ (i2 < 19)%nat /\ (i3 < 19)%nat
        /\ B64._find_volume_clusters df
           = [ B64.round2 (B64.edge_at lo hi i1);
               B64.round2 (B64.edge_at lo hi i2);
               B64.round2 (B64.edge_at lo hi i3) ]
        /\ B64.bin_volume df lo hi i1 <= B64.bin_volume df lo hi i2
        /\ B64.bin_volume df lo hi i2 <= B64.bin_volume df lo hi i3
        /\ (forall j, (j < 19)%nat -> ~ In j [i1; i2; i3] ->
              B64.bin_volume df lo hi j <= B64.bin_volume df lo hi i1)
        /\ (forall j, (j < 19)%nat ->
              B64.bin_volume df lo hi j <= B64.bin_volume df lo hi i3)).
Proof.
  intros _ _ lo hi edges.
  assert (Hedge : forall i, (i < 20)%nat ->
            edges !! i = Some (B64.edge_at lo hi i)).
  { intros i Hi. unfold edges. rewrite linspace64_20.
    apply lookup_map_seq. split; [lia | reflexivity]. }
  split; [reflexivity |]. split; [exact Hedge |].
  split.
  { intros i Hi. unfold B64.edge_at.
    destruct (Nat.ltb_spec i 19); [reflexivity | lia]. }
  split; [reflexivity |]. split.
  { intros Hm. unfold B64._find_volume_clusters, B64.np_histogram.
    fold lo hi. fold edges. now rewrite Hm. }
  intros Hm.
  destruct (argsort_top_three (map (B64.bin_volume df lo hi) (seq 0 19)))
    as (i1 & i2 & i3 & q1 & q2 & q3 & Hlast & Hnd & H1 & H2 & H3 & H12 & H23
        & Hrest).
  { rewrite length_map, length_seq. lia. }
  apply lookup_map_seq in H1, H2, H3.
  destruct H1 as (Hi1 & ->), H2 as (Hi2 & ->), H3 as (Hi3 & ->).
  simpl in H12, H23.
  assert (Hother : forall j, (j < 19)%nat -> ~ In j [i1; i2; i3] ->
            B64.bin_volume df lo hi j <= B64.bin_volume df lo hi i1).
  { intros j Hj Hnot. apply (Hrest j); [| exact Hnot].
    apply lookup_map_seq. split; [exact Hj | reflexivity]. }
  exists (map (B64.bin_volume df lo hi) (seq 0 19)), i1, i2, i3.
  split; [apply (histogram_run64 df lo hi Hm) |].
  split; [reflexivity |].
  split.
  { intros i Hi. apply lookup_map_seq. split; [exact Hi | reflexivity]. }
  split; [exact Hnd |]. split; [exact Hi1 |]. split; [exact Hi2 |].
  split; [exact Hi3 |].
  split.
  { unfold B64._find_volume_clusters. fold lo hi.
    rewrite (histogram_run64 df lo hi Hm).
    cbv beta iota delta [rbind]. rewrite Hlast. fold edges. cbn [take_at].
    rewrite (Hedge i1 ltac:(lia)), (Hedge i2 ltac:(lia)), (Hedge i3 ltac:(lia)).
    reflexivity. }
  split; [exact H12 |]. split; [exact H23 |]. split; [exact Hother |].
  intros j Hj. destruct (in_dec Nat.eq_dec j [i1; i2; i3]) as [Hin | Hnot].
  - destruct Hin as [<- | [<- | [<- | []]]].
    + eapply Qle_trans; eassumption.
    + exact H23.
    + apply Qle_refl.
  - eapply Qle_trans; [apply (Hother j Hj Hnot) |].
    eapply Qle_trans; eassumption.
Qed.

(** On [window_A], whose range is 98 to 107; and on a window whose closes
    sit on the decimal edges 100.6, 101.1 and 101.6 of the range 100 to
    101.9: the binary64 edges lie just above them, and the levels are
    100.5, 101.0 and 101.5. *)
Lemma volume_clusters_bins_window_A :
  (exists i1 i2 i3,
     NoDup [i1; i2; i3]
     /\ B64._find_volume_clusters window_A
        = [ B64.round2 (B64.edge_at 98 107 i1);
            B64.round2 (B64.edge_at 98 107 i2);
            B64.round2 (B64.edge_at 98 107 i3) ]
     /\ B64.bin_volume window_A 98 107 i1 <= B64.bin_volume window_A 98 107 i2
     /\ B64.bin_volume window_A 98 107 i2 <= B64.bin_volume window_A 98 107 i3)
  /\ B64._find_volume_clusters B64.on_edge_window
     = [100.5; 101; 101.5]%float.
Proof.
  split; [| vm_compute; reflexivity].
  destruct (volume_clusters_bins window_A ltac:(discriminate))
    as (_ & _ & _ & _ & _ & H).
  { split; [| vm_compute; reflexivity].
    repeat (constructor; [split; [reflexivity | cbn; lia] |]). constructor. }
  destruct (H ltac:(vm_compute; reflexivity))
    as (hist & i1 & i2 & i3 & _ & _ & _ & Hnd & _ & _ & _ & Hres & H12 & H23 & _).
  exists i1, i2, i3.
  change (B64.series_min (B64.col Low window_A)) with 98%float in *.
  change (B64.series_max (B64.col High window_A)) with 107%float in *.
  repeat split; assumption.
Defined.

(** C2 as stated fails: on [window_A] the histogram has 19 bins, not 20,
    and the levels 103.68, 104.63 and 98.95 are lower edges of bins of
    width 9/19; 20 bins reported by their upper edges would give 104.30,
    105.20 and 99.35. *)
Lemma volume_clusters_not_as_claimed :
  B64.series_min (B64.col Low window_A) = 98%float
  /\ B64.series_max (B64.col High window_A) = 107%float
  /\ (exists hist edges,
        B64.np_histogram (B64.col Close window_A)
          (B64.np_linspace 98 107 20) (map Volume window_A)
        = Ok (hist, edges)
        /\ length hist = 19%nat)
  /\ B64._find_volume_clusters window_A = [103.68; 104.63; 98.95]%float
  /\ B64.claimed_volume_clusters window_A = [104.3; 105.2; 99.35]%float
  /\ Forall2 (fun level claimed => (level <? claimed)%float = true)
       (B64._find_volume_clusters window_A)
       (B64.claimed_volume_clusters window_A).
Proof.
  split; [vm_compute; reflexivity |]. split; [vm_compute; reflexivity |].
  split; [eexists _, _; split; [vm_compute; reflexivity | reflexivity] |].
  split; [vm_compute; reflexivity |]. split; [vm_compute; reflexivity |].
  vm_compute. repeat constructor.
Qed.

(** ** The zone of a window *)

Lemma bin_edge_flat (lo hi : Q) (i : nat) : lo == hi -> bin_edge lo hi 19 i == lo.
Proof.
  intros H. unfold bin_edge. change (Qnat 19) with 19.
  assert (Hz : (hi - lo) / 19 == 0) by (rewrite H; field).
  rewrite Hz. lra.
Qed.

(** C4, amended.  On a window whose recent low equals its recent high, in
    particular when every bar has the same high, low and close, [identify]
    returns normally and the zone lists three cluster levels, each the
    common price rounded to two decimals: numpy accepts equal edges, so no
    error arises and the list is not empty. *)
Theorem degenerate_range_clusters `{E : Externals} (ticker : string)
    (self : StopHunterVS) (data : DataFrame) :
  get_data ticker "20d" "1d" = Some data ->
  exists zone self' lo hi,
    identify_liquidity_pools ticker self = (Ok (Some zone), self')
    /\ recent_low zone = Finite lo
    /\ recent_high zone = Finite hi
    /\ (lo == hi ->
        high_volume_nodes zone
        = [round2 (Finite lo); round2 (Finite lo); round2 (Finite lo)])
    /\ (forall c,
          (forall b, In b data -> High b == c /\ Low b == c /\ Close b == c) ->
          lo == c /\ hi == c
          /\ high_volume_nodes zone
             = [round2 (Finite c); round2 (Finite c); round2 (Finite c)]).
Proof.
  intros Hd. pose proof (get_data_nonempty _ _ _ _ Hd) as Hne.
  destruct (window_range data Hne) as (lo & hi & Hlo & Hhi & Hinlo & _ & Hinhi & _).
  exists (zone_of data), (mkSelf (<[ticker := zone_of data]> (liquidity_zones self))),
    lo, hi.
  split; [apply (identify_run _ _ _ Hd) |]. split; [exact Hlo |].
  split; [exact Hhi |].
  assert (Hflat : lo == hi ->
            _find_volume_clusters data
            = [round2 (Finite lo); round2 (Finite lo); round2 (Finite lo)]).
  { intros Heq.
    destruct (clusters_run data lo hi Hlo Hhi) as (i1 & i2 & i3 & _ & _ & _ & _ & Hres & _).
    { rewrite Heq. apply Qle_refl. }
    rewrite Hres. simpl.
    now rewrite !(round2q_comp _ lo (bin_edge_flat lo hi _ Heq)). }
  split; [exact Hflat |].
  intros c Hall.
  apply in_map_iff in Hinlo, Hinhi.
  destruct Hinlo as (b1 & <- & Hb1), Hinhi as (b2 & <- & Hb2).
  destruct (Hall b1 Hb1) as (_ & Hl1 & _), (Hall b2 Hb2) as (Hh2 & _ & _).
  split; [exact Hl1 |]. split; [exact Hh2 |].
  simpl. rewrite Hflat by (now rewrite Hl1, Hh2). simpl.
  now rewrite (round2q_comp _ c Hl1).
Qed.

Lemma degenerate_range_clusters_flat :
  exists zone,
    fst (identify_liquidity_pools (E := scenario) "FLAT" fresh) = Ok (Some zone)
    /\ high_volume_nodes zone
       = [round2 (Finite 50); round2 (Finite 50); round2 (Finite 50)].
Proof.
  destruct (degenerate_range_clusters (E := scenario) "FLAT" fresh flat_window
              eq_refl)
    as (zone & self' & lo & hi & Hrun & _ & _ & _ & Hflat).
  exists zone. rewrite Hrun. split; [reflexivity |].
  apply (Hflat 50). intros b [<- | [<- | []]]; repeat split; reflexivity.
Defined.

(** C4 as stated fails: over "FLAT", where every bar has high, low and close
    at 50, the zone lists 50.00 three times, not the empty list. *)
Lemma degenerate_range_not_empty :
  (forall b, In b flat_window -> High b = 50 /\ Low b = 50 /\ Close b = 50)
  /\ exists zone,
       fst (identify_liquidity_pools (E := scenario) "FLAT" fresh)
       = Ok (Some zone)
       /\ recent_low zone = Finite 50
       /\ recent_high zone = Finite 50
       /\ high_volume_nodes zone = [Finite 50.00; Finite 50.00; Finite 50.00]
       /\ high_volume_nodes zone <> [].
Proof.
  split.
  - intros b [<- | [<- | []]]; repeat split.
  - eexists. split; [vm_compute; reflexivity |].
    repeat split. discriminate.
Qed.

(** C8, amended.  The zone of a non-empty window has the least low as its
    recent low and the greatest high as its recent high, and lists at most
    three cluster levels; each level is the two-decimal rounding of a bin
    edge that lies within [recent low, recent high], so the level itself
    lies within half a cent of that range. *)
Theorem zone_levels `{E : Externals} (ticker : string) (self : StopHunterVS)
    (data : DataFrame) :
  get_data ticker "20d" "1d" = Some data ->
  exists zone self' lo hi,
    identify_liquidity_pools ticker self = (Ok (Some zone), self')
    /\ recent_low zone = Finite lo
    /\ recent_high zone = Finite hi
    /\ (exists b, In b data /\ Low b = lo)
    /\ (forall b, In b data -> lo <= Low b)
    /\ (exists b, In b data /\ High b = hi)
    /\ (forall b, In b data -> High b <= hi)
    /\ (length (high_volume_nodes zone) <= 3)%nat
    /\ (forall x, In x (high_volume_nodes zone) ->
          exists e,
            x = Finite (round2q e)
            /\ lo <= e <= hi
            /\ lo - 0.005 <= round2q e <= hi + 0.005).
Proof.
  intros Hd. pose proof (get_data_nonempty _ _ _ _ Hd) as Hne.
  destruct (window_range data Hne)
    as (lo & hi & Hlo & Hhi & Hinlo & Hmin & Hinhi & Hmax).
  exists (zone_of data), (mkSelf (<[ticker := zone_of data]> (liquidity_zones self))),
    lo, hi.
  split; [apply (identify_run _ _ _ Hd) |]. split; [exact Hlo |].
  split; [exact Hhi |].
  split. { apply in_map_iff in Hinlo. destruct Hinlo as (b & Hb & Hin). eauto. }
  split; [exact Hmin |].
  split. { apply in_map_iff in Hinhi. destruct Hinhi as (b & Hb & Hin). eauto. }
  split; [exact Hmax |]. simpl.
  destruct (Qlt_le_dec hi lo) as [Hlt | Hle].
  - rewrite (clusters_inverted data lo hi Hlo Hhi Hlt). simpl.
    split; [lia | intros x []].
  - destruct (clusters_run data lo hi Hlo Hhi Hle)
      as (i1 & i2 & i3 & _ & Hi1 & Hi2 & Hi3 & Hres & _).
    rewrite Hres. split; [simpl; lia |].
    assert (Hedge : forall i, (i < 19)%nat ->
              exists e,
                round2 (Finite (bin_edge lo hi 19 i)) = Finite (round2q e)
                /\ lo <= e <= hi /\ lo - 0.005 <= round2q e <= hi + 0.005).
    { intros i Hi. exists (bin_edge lo hi 19 i).
      pose proof (bin_edge_range lo hi i Hle ltac:(lia)) as Hr.
      pose proof (round2q_close (bin_edge lo hi 19 i)) as Hc.
      split; [reflexivity |]. split; [exact Hr | split; lra]. }
    intros x [<- | [<- | [<- | []]]]; apply Hedge; assumption.
Qed.

Lemma zone_levels_window_A :
  exists zone lo hi,
    fst (identify_liquidity_pools (E := scenario) "A" fresh) = Ok (Some zone)
    /\ recent_low zone = Finite lo /\ recent_high zone = Finite hi
    /\ (length (high_volume_nodes zone) <= 3)%nat
    /\ forall x, In x (high_volume_nodes zone) ->
         exists e, x = Finite (round2q e) /\ lo <= e <= hi.
Proof.
  destruct (zone_levels (E := scenario) "A" fresh window_A eq_refl)
    as (zone & self' & lo & hi & Hrun & Hlo & Hhi & _ & _ & _ & _ & Hlen & Hall).
  exists zone, lo, hi. rewrite Hrun. repeat split; try assumption.
  intros x Hx. destruct (Hall x Hx) as (e & He & Hr & _). eauto.
Defined.

(** C8 as stated fails: over "PINCH" the range is 100.004 to 100.006, the
    bins 0, 9 and 18 hold the volumes 1000, 2000 and 3000, and their lower
    edges, rounded to cents, are 100.00, 100.00 and 100.01: each level lies
    outside the range. *)
Lemma zone_levels_leave_the_range :
  exists zone,
    fst (identify_liquidity_pools (E := scenario) "PINCH" fresh)
    = Ok (Some zone)
    /\ recent_low zone = Finite 100.004
    /\ recent_high zone = Finite 100.006
    /\ high_volume_nodes zone = [Finite 100.00; Finite 100.00; Finite 100.01]
    /\ Forall (fun x => flt x (recent_low zone) = true
                        \/ flt (recent_high zone) x = true)
         (high_volume_nodes zone).
Proof.
  eexists. split; [vm_compute; reflexivity |].
  split; [reflexivity |]. split; [reflexivity |]. split; [reflexivity |].
  repeat (constructor; [first [left; reflexivity | right; reflexivity] |]).
  constructor.
Qed.

(** * Further properties of the code *)

(** ** Fetching *)

(** [get_data] hands out a frame exactly when the download returned
    that frame and it has a bar: an exception and an empty frame both come
    out as [None]. *)
Lemma get_data_some_iff `{E : Externals} (ticker period interval : string)
    (df : DataFrame) :
  get_data ticker period interval = Some df
  <-> yf_download ticker period interval = Ok df /\ df <> [].
Proof.
  unfold get_data. destruct (yf_download ticker period interval) as [[| b r] | e];
    simpl; split.
  - discriminate.
  - intros (H & Hne). inversion H; subst. congruence.
  - intros H. inversion H; subst. split; [reflexivity | discriminate].
  - intros (H & _). inversion H; subst. reflexivity.
  - discriminate.
  - intros (H & _). discriminate.
Qed.

(** ** The signals of a run *)

Lemma detect_signal_inv `{E : Externals} (ticker : string)
    (self self' : StopHunterVS) (signals : list Signal) (s : Signal) :
  detect_stop_hunt ticker self = (Ok signals, self') ->
  s ∈ signals ->
  exists intraday data current down up,
    get_data ticker "1d" "5m" = Some intraday
    /\ get_data ticker "20d" "1d" = Some data
    /\ last intraday = Some current
    /\ _calculate_confidence intraday "down" = Ok down
    /\ _calculate_confidence intraday "up" = Ok up
    /\ ((bear_trap_fires current (zone_of data) intraday = true
         /\ s = bear_signal current (zone_of data) down)
        \/ (bull_trap_fires current (zone_of data) intraday = true
            /\ s = bull_signal current (zone_of data) up)).
Proof.
  intros Hrun Hin.
  destruct (get_data ticker "1d" "5m") as [intraday |] eqn:Hi.
  2:{ rewrite (detect_no_intraday _ _ Hi) in Hrun. inversion Hrun; subst.
      inversion Hin. }
  destruct (get_data ticker "20d" "1d") as [data |] eqn:Hd.
  2:{ rewrite (detect_no_zone _ _ Hd) in Hrun. inversion Hrun; subst.
      inversion Hin. }
  destruct (iloc_last_nonempty intraday (get_data_nonempty _ _ _ _ Hi))
    as (current & Hl & _).
  destruct (detect_run ticker self _ _ _ Hi Hd Hl)
    as (down & up & Hdn & Hu & Hrun').
  rewrite Hrun' in Hrun. inversion Hrun; subst. clear Hrun.
  apply signals_cases in Hin.
  exists intraday, data, current, down, up. repeat split; assumption.
Qed.

Lemma rint_mono (x y : Q) : x <= y -> (rint x <= rint y)%Z.
Proof.
  intros Hxy. destruct (Z_le_gt_dec (rint x) (rint y)) as [H | H]; [exact H |].
  exfalso. pose proof (rint_close x) as Hx. pose proof (rint_close y) as Hy.
  assert (Hz : inject_Z (rint y) + 1 <= inject_Z (rint x)).
  { change 1 with (inject_Z 1). rewrite <- inject_Z_plus, <- Zle_Qle. lia. }
  assert (Heq : x == y) by lra.
  rewrite (rint_comp _ _ Heq) in H. lia.
Qed.

Lemma round2q_mono (x y : Q) : x <= y -> round2q x <= round2q y.
Proof.
  intros H. unfold round2q, Qle. simpl.
  apply Z.mul_le_mono_nonneg_r; [lia |]. apply rint_mono. lra.
Qed.

(** X1.  Over a zone with a recent low and a recent high of zero or more,
    the stop of a bear trap is never above its entry and the stop of a bull
    trap never below its entry; both are finite. *)
Theorem stop_beyond_entry `{E : Externals} (ticker : string)
    (self self' : StopHunterVS) (signals : list Signal) (s : Signal)
    (lz : LiquidityZone) (lo hi : Q) :
  detect_stop_hunt ticker self = (Ok signals, self') ->
  fst (identify_liquidity_pools ticker self) = Ok (Some lz) ->
  recent_low lz = Finite lo ->
  recent_high lz = Finite hi ->
  0 <= lo -> 0 <= hi ->
  s ∈ signals ->
  exists e st,
    entry s = Finite e /\ stop s = Finite st
    /\ (type s = bear_trap -> st <= e)
    /\ (type s = bull_trap -> e <= st).
Proof.
  intros Hrun Hid Hlo Hhi Hlo0 Hhi0 Hin.
  destruct (detect_signal_inv _ _ _ _ _ Hrun Hin)
    as (intraday & data & current & down & up & Hi & Hd & Hl & _ & _ & Hs).
  rewrite (identify_run _ _ _ Hd) in Hid. simpl in Hid. inversion Hid; subst lz.
  destruct Hs as [(Hf & ->) | (Hf & ->)];
    unfold bear_signal, bull_signal; cbn [entry stop type];
    rewrite ?Hlo, ?Hhi; cbn [fmul round2];
    eexists _, _; (split; [reflexivity |]); (split; [reflexivity |]);
    split; intros Hty; try discriminate.
  - unfold bear_trap_fires in Hf. rewrite Hlo in Hf.
    apply andb_true_iff in Hf. destruct Hf as (Hf & _).
    apply andb_true_iff in Hf. destruct Hf as (_ & Hf).
    simpl in Hf. apply Qltb_lt in Hf. apply round2q_mono. lra.
  - unfold bull_trap_fires in Hf. rewrite Hhi in Hf.
    apply andb_true_iff in Hf. destruct Hf as (Hf & _).
    apply andb_true_iff in Hf. destruct Hf as (_ & Hf).
    simpl in Hf. apply Qltb_lt in Hf. apply round2q_mono. lra.
Qed.

Lemma stop_beyond_entry_both :
  exists s1 s2 e1 st1 e2 st2,
    fst (detect_stop_hunt (E := scenario) "BOTH" fresh) = Ok [s1; s2]
    /\ entry s1 = Finite e1 /\ stop s1 = Finite st1 /\ st1 <= e1
    /\ entry s2 = Finite e2 /\ stop s2 = Finite st2 /\ e2 <= st2.
Proof.
  destruct (detect_stop_hunt (E := scenario) "BOTH" fresh)
    as [[[| s1 [| s2 [| s3 r]]] | e] self'] eqn:Hrun;
    try (vm_compute in Hrun; discriminate).
  assert (Ht : type s1 = bear_trap /\ type s2 = bull_trap).
  { vm_compute in Hrun. inversion Hrun; subst. split; reflexivity. }
  destruct Ht as (Ht1 & Ht2).
  destruct (stop_beyond_entry (E := scenario) "BOTH" fresh self' [s1; s2] s1
              (zone_of narrow_window) 100 100.5 Hrun eq_refl eq_refl eq_refl
              ltac:(discriminate) ltac:(discriminate)
              ltac:(apply list_elem_of_In; now left))
    as (e1 & st1 & He1 & Hst1 & Hb1 & _).
  destruct (stop_beyond_entry (E := scenario) "BOTH" fresh self' [s1; s2] s2
              (zone_of narrow_window) 100 100.5 Hrun eq_refl eq_refl eq_refl
              ltac:(discriminate) ltac:(discriminate)
              ltac:(apply list_elem_of_In; right; now left))
    as (e2 & st2 & He2 & Hst2 & _ & Hb2).
  exists s1, s2, e1, st1, e2, st2. repeat split; auto.
Defined.

(** X2.  When every intraday bar carries the same volume, zero or more (in
    particular when there is a single bar), the latest volume cannot exceed
    1.8 times the mean and the detector returns no signal. *)
Theorem flat_volume_never_fires `{E : Externals} (ticker : string)
    (self : StopHunterVS) (intraday : DataFrame) (v : Q) :
  get_data ticker "1d" "5m" = Some intraday ->
  0 <= v ->
  (forall b, In b intraday -> Volume b == v) ->
  fst (detect_stop_hunt ticker self) = Ok [].
Proof.
  intros Hi Hv Hall.
  destruct (get_data ticker "20d" "1d") as [data |] eqn:Hd;
    [| now rewrite (detect_no_zone _ _ Hd)].
  pose proof (get_data_nonempty _ _ _ _ Hi) as Hne.
  destruct (iloc_last_nonempty intraday Hne) as (current & Hl & _).
  destruct (detect_run ticker self _ _ _ Hi Hd Hl) as (down & up & _ & _ & Hrun).
  rewrite Hrun. simpl.
  destruct (mean_nonempty (map Volume intraday)) as (mean & Hmean & Hmeq);
    [auto with frames |].
  assert (Hm : mean == v).
  { rewrite Hmeq, series_sum_map, length_map.
    rewrite (total_ext _ (fun _ => v)) by exact Hall.
    rewrite total_const. field.
    assert (0 < Qnat (length intraday))
      by (apply Qnat_pos; destruct intraday; [congruence | simpl; lia]).
    lra. }
  assert (Hcur : Volume current == v).
  { apply Hall. apply last_Some in Hl. destruct Hl as (l' & ->).
    apply in_or_app. right. now left. }
  assert (Hvol : flt (fmul (series_mean (map Volume intraday)) (Finite 1.8))
                   (Finite (Volume current)) = false).
  { rewrite Hmean. simpl. apply not_true_is_false. rewrite Qltb_lt. lra. }
  unfold bear_trap_fires, bull_trap_fires. rewrite Hvol, !andb_false_r.
  reflexivity.
Qed.

Lemma flat_volume_never_fires_tight :
  fst (detect_stop_hunt (E := scenario) "TIGHT" fresh) = Ok [].
Proof.
  apply (flat_volume_never_fires (E := scenario) "TIGHT" fresh tight_window 1000
           eq_refl ltac:(discriminate)).
  intros b [<- | []]. reflexivity.
Defined.

(** ** The zone *)

Lemma clusters_length_cases (df : DataFrame) :
  df <> [] ->
  length (_find_volume_clusters df) = 3%nat \/ _find_volume_clusters df = [].
Proof.
  intros Hne.
  destruct (window_range df Hne) as (lo & hi & Hlo & Hhi & _).
  destruct (Qlt_le_dec hi lo) as [Hlt | Hle].
  - right. apply (clusters_inverted df lo hi Hlo Hhi Hlt).
  - left. destruct (clusters_run df lo hi Hlo Hhi Hle)
      as (i1 & i2 & i3 & _ & _ & _ & _ & Hres & _).
    now rewrite Hres.
Qed.

(** X4.  On a non-empty window the clustering reports three levels, or none
    at all: none exactly when the least low lies above the greatest high,
    where numpy refuses the descending edges and the exception is
    swallowed. *)
Theorem clusters_three_or_none (df : DataFrame) :
  df <> [] ->
  exists lo hi,
    series_min (map Low df) = Finite lo
    /\ series_max (map High df) = Finite hi
    /\ (length (_find_volume_clusters df) = 3%nat
        \/ _find_volume_clusters df = [])
    /\ (_find_volume_clusters df = [] <-> hi < lo).
Proof.
  intros Hne.
  destruct (window_range df Hne) as (lo & hi & Hlo & Hhi & _).
  exists lo, hi. split; [exact Hlo |]. split; [exact Hhi |].
  destruct (Qlt_le_dec hi lo) as [Hlt | Hle].
  - rewrite (clusters_inverted df lo hi Hlo Hhi Hlt). split; [now right |].
    split; auto.
  - destruct (clusters_run df lo hi Hlo Hhi Hle)
      as (i1 & i2 & i3 & _ & _ & _ & _ & Hres & _).
    rewrite Hres. split; [now left |]. split; [discriminate | lra].
Qed.

Lemma clusters_three_or_none_inverted :
  _find_volume_clusters [mkBar 10 9 11 10 500] = []
  /\ length (_find_volume_clusters window_A) = 3%nat.
Proof.
  destruct (clusters_three_or_none [mkBar 10 9 11 10 500] ltac:(discriminate))
    as (lo & hi & Hlo & Hhi & _ & Hiff).
  destruct (clusters_three_or_none window_A ltac:(discriminate))
    as (lo' & hi' & Hlo' & Hhi' & [H3 | H0] & Hiff').
  - split; [| exact H3]. apply Hiff.
    vm_compute in Hlo, Hhi. inversion Hlo; inversion Hhi; subst. reflexivity.
  - exfalso. apply Hiff' in H0.
    vm_compute in Hlo', Hhi'. inversion Hlo'; inversion Hhi'; subst.
    vm_compute in H0. discriminate.
Defined.

(** ** The scorer *)

Lemma confidence_else_up `{E : Externals} (df : DataFrame)
    (direction : string) :
  direction <> "down"%string ->
  _calculate_confidence df direction = _calculate_confidence df "up".
Proof.
  intros Hdir. unfold _calculate_confidence.
  now rewrite (proj2 (String.eqb_neq direction "down") Hdir).
Qed.

(** X5.  The scorer tests the direction against "down" only: every other
    string is scored as "up", and on a non-empty series that score is one
    minus the score for "down". *)
Theorem direction_is_down_or_up `{E : Externals} (df : DataFrame)
    (direction : string) :
  direction <> "down"%string ->
  _calculate_confidence df direction = _calculate_confidence df "up"
  /\ (df <> [] ->
      exists down,
        _calculate_confidence df "down" = Ok down
        /\ _calculate_confidence df direction = Ok (fsub (Finite 1) down)).
Proof.
  intros Hdir. pose proof (confidence_else_up df direction Hdir) as Heq.
  split; [exact Heq |]. intros Hne.
  destruct (confidence_run df Hne) as (latest & _ & Hdown & Hup).
  eexists. split; [exact Hdown |]. now rewrite Heq, Hup.
Qed.

Lemma direction_is_down_or_up_sideways :
  exists down,
    _calculate_confidence (E := scenario) window_A "down" = Ok down
    /\ _calculate_confidence (E := scenario) window_A "sideways"
       = Ok (fsub (Finite 1) down).
Proof.
  destruct (direction_is_down_or_up (E := scenario) window_A "sideways"
              ltac:(discriminate)) as (_ & H).
  apply H. discriminate.
Defined.

Lemma returns_hold_nan `{E : Externals} (df : DataFrame) :
  df <> [] -> existsb is_nan (returns_of df) = true.
Proof. destruct df; [congruence | reflexivity]. Qed.

(** X6.  With scipy's [percentileofscore] as it stands since 1.9 (a NaN in
    the sample gives NaN), the scorer returns NaN on every non-empty series,
    since the first return of a series is NaN, and every signal of the
    detector carries the confidence 90. *)
Theorem confidence_is_the_cap `{E : Externals} (ticker : string)
    (self self' : StopHunterVS) (signals : list Signal) :
  (forall a score, percentileofscore a score = scipy_percentileofscore a score) ->
  (forall df direction,
     df <> [] -> _calculate_confidence df direction = Ok NaN)
  /\ (detect_stop_hunt ticker self = (Ok signals, self') ->
      forall s, s ∈ signals -> confidence s = Finite 90).
Proof.
  intros Hscipy.
  assert (Hnan : forall df direction,
            df <> [] -> _calculate_confidence df direction = Ok NaN).
  { intros df direction Hne.
    destruct (confidence_run df Hne) as (latest & _ & Hdown & Hup).
    rewrite Hscipy in Hdown, Hup. unfold scipy_percentileofscore in Hdown, Hup.
    rewrite (returns_hold_nan df Hne) in Hdown, Hup. simpl in Hdown, Hup.
    destruct (String.eqb direction "down") eqn:Hb.
    - apply String.eqb_eq in Hb. now subst.
    - apply String.eqb_neq in Hb.
      rewrite (confidence_else_up df direction Hb). exact Hup. }
  split; [exact Hnan |].
  intros Hrun s Hin.
  destruct (detect_signal_inv _ _ _ _ _ Hrun Hin)
    as (intraday & data & current & down & up & Hi & _ & _ & Hdn & Hu & Hs).
  pose proof (get_data_nonempty _ _ _ _ Hi) as Hne.
  rewrite (Hnan intraday "down"%string Hne) in Hdn.
  rewrite (Hnan intraday "up"%string Hne) in Hu.
  inversion Hdn; inversion Hu; subst.
  destruct Hs as [(_ & ->) | (_ & ->)]; reflexivity.
Qed.

Lemma confidence_is_the_cap_B :
  _calculate_confidence (E := scenario) intraday_B "down" = Ok NaN
  /\ exists s,
       fst (detect_stop_hunt (E := scenario) "B" fresh) = Ok [s]
       /\ confidence s = Finite 90.
Proof.
  destruct (detect_stop_hunt (E := scenario) "B" fresh)
    as [[[| s [| s2 r]] | e] self'] eqn:Hrun;
    try (vm_compute in Hrun; discriminate).
  destruct (confidence_is_the_cap (E := scenario) "B" fresh self' [s]
              (fun a score => eq_refl)) as (Hnan & Hcap).
  split; [apply Hnan; discriminate |].
  exists s. split; [reflexivity |].
  apply (Hcap Hrun). apply list_elem_of_In. now left.
Defined.

(** ** Prices *)

(** X7.  The entry and the stop of every signal are finite whole numbers of
    cents.  So is the target when the summed volume of the daily window is
    not zero; when every daily bar has the volume zero the vwap is NaN and
    the signal carries NaN as its target. *)
Theorem signal_prices_in_cents `{E : Externals} (ticker : string)
    (self self' : StopHunterVS) (signals : list Signal) (data : DataFrame)
    (s : Signal) :
  detect_stop_hunt ticker self = (Ok signals, self') ->
  get_data ticker "20d" "1d" = Some data ->
  s ∈ signals ->
  (exists cents, entry s = Finite (Qmake cents 100))
  /\ (exists cents, stop s = Finite (Qmake cents 100))
  /\ (~ total Volume data == 0 ->
      exists cents, target s = Finite (Qmake cents 100))
  /\ ((forall b, In b data -> Volume b == 0) -> target s = NaN).
Proof.
  intros Hrun Hd Hin.
  destruct (detect_signal_inv _ _ _ _ _ Hrun Hin)
    as (intraday & data' & current & down & up & _ & Hd' & _ & _ & _ & Hs).
  rewrite Hd in Hd'. inversion Hd'; subst data'. clear Hd'.
  pose proof (get_data_nonempty _ _ _ _ Hd) as Hne.
  destruct (window_range data Hne) as (lo & hi & Hlo & Hhi & _).
  change (recent_low (zone_of data) = Finite lo) in Hlo.
  change (recent_high (zone_of data) = Finite hi) in Hhi.
  assert (Hvwap : vwap (zone_of data) = _calculate_vwap data) by reflexivity.
  assert (Hfin : ~ total Volume data == 0 ->
            exists cents, round2 (vwap (zone_of data)) = Finite (Qmake cents 100)).
  { intros Hnz. rewrite Hvwap. unfold _calculate_vwap, fdiv.
    destruct (Qeq_bool (series_sum (map Volume data)) 0) eqn:Hz.
    - apply Qeq_bool_iff in Hz. rewrite series_sum_map in Hz. contradiction.
    - eexists. reflexivity. }
  assert (Hnan : (forall b, In b data -> Volume b == 0) ->
            round2 (vwap (zone_of data)) = NaN).
  { intros Hzero. rewrite Hvwap.
    assert (Hz : total Volume data == 0).
    { rewrite (total_ext _ (fun _ => 0)) by exact Hzero.
      rewrite total_const. lra. }
    assert (Hb : Qeq_bool (series_sum (map Volume data)) 0 = true)
      by (apply Qeq_bool_iff; now rewrite series_sum_map).
    assert (Hn : series_sum
                   (map (fun b => Volume b * (High b + Low b + Close b) / 3)
                      data) == 0).
    { rewrite vwap_numerator, (total_ext _ (fun _ => 0)).
      - rewrite total_const. lra.
      - intros b Hb'. rewrite (Hzero b Hb'). lra. }
    unfold _calculate_vwap, fdiv, signed_inf. rewrite Hb.
    apply Qeq_alt in Hn. now rewrite Hn. }
  destruct Hs as [(_ & ->) | (_ & ->)];
    unfold bear_signal, bull_signal; cbn [entry stop target];
    rewrite ?Hlo, ?Hhi; cbn [fmul round2];
    (split; [eexists; reflexivity |]); (split; [eexists; reflexivity |]);
    (split; [exact Hfin | exact Hnan]).
Qed.

Lemma signal_prices_in_cents_B :
  exists s c1 c2 c3,
    fst (detect_stop_hunt (E := scenario) "B" fresh) = Ok [s]
    /\ entry s = Finite (Qmake c1 100)
    /\ stop s = Finite (Qmake c2 100)
    /\ target s = Finite (Qmake c3 100).
Proof.
  destruct (detect_stop_hunt (E := scenario) "B" fresh)
    as [[[| s [| s2 r]] | e] self'] eqn:Hrun;
    try (vm_compute in Hrun; discriminate).
  destruct (signal_prices_in_cents (E := scenario) "B" fresh self' [s] window_A s
              Hrun eq_refl ltac:(apply list_elem_of_In; now left))
    as ((c1 & H1) & (c2 & H2) & H3 & _).
  destruct H3 as (c3 & H3); [vm_compute; discriminate |].
  exists s, c1, c2, c3. repeat split; assumption.
Defined.

(** ** The cache *)

(** X8.  A second [identify] over the same ticker changes nothing: it
    returns what the first returned and leaves the state the first left;
    after a successful one the cache holds the returned zone under the
    ticker and the entries of the other tickers are as before. *)
Theorem identify_twice `{E : Externals} (ticker : string)
    (self : StopHunterVS) :
  identify_liquidity_pools ticker (snd (identify_liquidity_pools ticker self))
  = identify_liquidity_pools ticker self
  /\ (forall zone,
        fst (identify_liquidity_pools ticker self) = Ok (Some zone) ->
        liquidity_zones (snd (identify_liquidity_pools ticker self)) !! ticker
        = Some zone)
  /\ (forall t, t <> ticker ->
        liquidity_zones (snd (identify_liquidity_pools ticker self)) !! t
        = liquidity_zones self !! t).
Proof.
  destruct (get_data ticker "20d" "1d") as [data |] eqn:Hd.
  - rewrite !(identify_run _ _ _ Hd). simpl. split; [| split].
    + now rewrite insert_insert_eq.
    + intros zone Hz. inversion Hz; subst. apply lookup_insert_eq.
    + intros t Hne. now apply lookup_insert_ne.
  - rewrite !(identify_none _ _ Hd). simpl. split; [reflexivity |].
    split; [discriminate | reflexivity].
Qed.

Lemma cache_after_detect `{E : Externals} (ticker : string)
    (self : StopHunterVS) :
  liquidity_zones (snd (detect_stop_hunt ticker self))
  = match refreshed ticker with
    | Some zone => <[ticker := zone]> (liquidity_zones self)
    | None => liquidity_zones self
    end.
Proof.
  unfold refreshed.
  destruct (get_data ticker "1d" "5m") as [intraday |] eqn:Hi;
    [| now rewrite (detect_no_intraday _ _ Hi)].
  destruct (get_data ticker "20d" "1d") as [data |] eqn:Hd;
    [| now rewrite (detect_no_zone _ _ Hd)].
  destruct (iloc_last_nonempty intraday (get_data_nonempty _ _ _ _ Hi))
    as (current & Hl & _).
  destruct (detect_run ticker self _ _ _ Hi Hd Hl) as (d & u & _ & _ & Hrun).
  now rewrite Hrun.
Qed.

Lemma cache_after_scan_loop `{E : Externals} (tickers : list string)
    (acc : gmap string (list Signal)) (self : StopHunterVS) (t : string) :
  liquidity_zones (snd (scan_loop tickers acc self)) !! t
  = if decide (t ∈ tickers) then
      match refreshed t with
      | Some zone => Some zone
      | None => liquidity_zones self !! t
      end
    else liquidity_zones self !! t.
Proof.
  revert acc self. induction tickers as [| ticker rest IH]; intros acc self.
  - simpl. destruct (decide (t ∈ [])) as [H | _]; [inversion H | reflexivity].
  - destruct (detect_signals_of ticker self) as (self1 & Hrun).
    pose proof (cache_after_detect ticker self) as Hc. rewrite Hrun in Hc.
    simpl in Hc. simpl. unfold bind at 1. rewrite Hrun, IH, Hc.
    destruct (decide (t = ticker)) as [-> | Hne].
    + destruct (decide (ticker ∈ ticker :: rest)) as [_ | Hn];
        [| exfalso; apply Hn; now left].
      destruct (refreshed ticker) as [zone |] eqn:Hr.
      * rewrite lookup_insert_eq. now destruct (decide (ticker ∈ rest)).
      * now destruct (decide (ticker ∈ rest)).
    + assert (Hl : match refreshed ticker with
                   | Some zone => <[ticker := zone]> (liquidity_zones self)
                   | None => liquidity_zones self
                   end !! t = liquidity_zones self !! t).
      { destruct (refreshed ticker); [| reflexivity].
        apply lookup_insert_ne. congruence. }
      rewrite Hl.
      destruct (decide (t ∈ rest)) as [Hin | Hnin];
        destruct (decide (t ∈ ticker :: rest)) as [Hin' | Hnin'];
        try reflexivity.
      * exfalso. apply Hnin'. now right.
      * exfalso. apply elem_of_cons in Hin'. destruct Hin'; contradiction.
Qed.

(** X9.  After a scan the cache holds, under every scanned symbol with
    intraday and daily bars, the zone of its daily window; every other entry
    is as it was before the scan, so the cache grows by scanned symbols
    only and nothing is ever removed. *)
Theorem scan_market_cache `{E : Externals} (tickers : list string)
    (self : StopHunterVS) :
  (forall t intraday data,
     t ∈ tickers ->
     get_data t "1d" "5m" = Some intraday ->
     get_data t "20d" "1d" = Some data ->
     liquidity_zones (snd (scan_market tickers self)) !! t
     = Some (zone_of data))
  /\ (forall t,
        t ∉ tickers
        \/ get_data t "1d" "5m" = None
        \/ get_data t "20d" "1d" = None ->
        liquidity_zones (snd (scan_market tickers self)) !! t
        = liquidity_zones self !! t)
  /\ (forall t zone,
        liquidity_zones self !! t = Some zone ->
        is_Some (liquidity_zones (snd (scan_market tickers self)) !! t)).
Proof.
  unfold scan_market. split; [| split].
  - intros t intraday data Hin Hi Hd. rewrite cache_after_scan_loop.
    destruct (decide (t ∈ tickers)); [| contradiction].
    unfold refreshed. now rewrite Hi, Hd.
  - intros t H. rewrite cache_after_scan_loop.
    destruct (decide (t ∈ tickers)) as [Hin | _]; [| reflexivity].
    unfold refreshed. destruct H as [H | [H | H]]; [contradiction | |].
    + now rewrite H.
    + rewrite H. now destruct (get_data t "1d" "5m").
  - intros t zone Hz. rewrite cache_after_scan_loop, Hz.
    destruct (decide (t ∈ tickers)); [| eauto].
    destruct (refreshed t); eauto.
Qed.

Lemma scan_market_cache_scenario :
  liquidity_zones
    (snd (scan_market (E := scenario) ["DOWN"; "A"; "B"]%string fresh)) !! "A"
  = Some (zone_of window_A)
  /\ liquidity_zones
       (snd (scan_market (E := scenario) ["DOWN"; "A"; "B"]%string fresh))
     !! "DOWN"
     = None.
Proof.
  destruct (scan_market_cache (E := scenario) ["DOWN"; "A"; "B"]%string fresh)
    as (H1 & H2 & _).
  split.
  - apply (H1 "A"%string window_A window_A); [| reflexivity | reflexivity].
    apply list_elem_of_In. right. now left.
  - rewrite (H2 "DOWN"%string); [reflexivity |]. right. left. reflexivity.
Defined.

(** ** The mapping of a scan *)

Lemma scan_lookup `{E : Externals} (tickers : list string)
    (self : StopHunterVS) :
  exists results self',
    scan_market tickers self = (Ok results, self')
    /\ forall t, results !! t = reported tickers t.
Proof.
  destruct (scan_loop_run tickers ∅ self) as (results & self' & Hrun & Hres).
  exists results, self'. split; [exact Hrun |]. intros t. unfold reported.
  destruct (results !! t) as [signals |] eqn:Hl.
  - apply Hres in Hl. destruct Hl as [(Hin & -> & Hne) | (_ & Hc)];
      [| now rewrite lookup_empty in Hc].
    destruct (decide (t ∈ tickers)); [| contradiction].
    destruct (signals_of t); [congruence | reflexivity].
  - destruct (decide (t ∈ tickers)) as [Hin | _]; [| reflexivity].
    destruct (signals_of t) as [| s0 l0] eqn:Hs; [reflexivity |].
    assert (Hsome : results !! t = Some (s0 :: l0)).
    { apply Hres. left. split; [exact Hin |]. split; [now rewrite Hs | discriminate]. }
    congruence.
Qed.

(** X10.  The mapping of a scan depends on which symbols are scanned, not on
    their order, their repetition or the state of the analyzer: two
    watchlists with the same symbols give the same mapping. *)
Theorem scan_market_watchlist_as_set `{E : Externals}
    (tickers tickers' : list string) (self self' : StopHunterVS) :
  (forall t, t ∈ tickers <-> t ∈ tickers') ->
  fst (scan_market tickers self) = fst (scan_market tickers' self').
Proof.
  intros Hsame.
  destruct (scan_lookup tickers self) as (r1 & s1 & Hr1 & Hl1).
  destruct (scan_lookup tickers' self') as (r2 & s2 & Hr2 & Hl2).
  rewrite Hr1, Hr2. simpl. f_equal. apply map_eq. intros t.
  rewrite Hl1, Hl2. unfold reported.
  destruct (decide (t ∈ tickers)) as [H | H], (decide (t ∈ tickers')) as [H' | H'];
    try reflexivity; exfalso; [apply H' | apply H]; now apply Hsame.
Qed.

Lemma scan_market_watchlist_as_set_scenario :
  fst (scan_market (E := scenario) ["A"; "B"]%string fresh)
  = fst (scan_market (E := scenario) ["B"; "A"; "B"]%string
           (mkSelf (<["B" := zone_of flat_window]> ∅))).
Proof.
  apply (scan_market_watchlist_as_set (E := scenario)).
  intros t. rewrite !list_elem_of_In. simpl. tauto.
Defined.

(** X11.  Scanning two watchlists one after the other reports what scanning
    each reports: the mapping of the concatenation is the union of the two
    mappings. *)
Theorem scan_market_app `{E : Externals} (tickers tickers' : list string)
    (self : StopHunterVS) :
  exists both first second,
    fst (scan_market (tickers ++ tickers') self) = Ok both
    /\ fst (scan_market tickers self) = Ok first
    /\ fst (scan_market tickers' self) = Ok second
    /\ both = first ∪ second.
Proof.
  destruct (scan_lookup (tickers ++ tickers') self) as (r & s & Hr & Hl).
  destruct (scan_lookup tickers self) as (r1 & s1 & Hr1 & Hl1).
  destruct (scan_lookup tickers' self) as (r2 & s2 & Hr2 & Hl2).
  exists r, r1, r2. rewrite Hr, Hr1, Hr2. repeat split.
  apply map_eq. intros t. rewrite lookup_union, Hl, Hl1, Hl2. unfold reported.
  destruct (decide (t ∈ tickers)) as [H1 | H1],
    (decide (t ∈ tickers')) as [H2 | H2],
    (decide (t ∈ tickers ++ tickers')) as [H | H];
    try (exfalso; apply H; apply elem_of_app; auto; fail);
    try (exfalso; apply elem_of_app in H; destruct H; contradiction);
    destruct (signals_of t); reflexivity.
Qed.

Lemma identify_twice_scenario :
  liquidity_zones
    (snd (identify_liquidity_pools (E := scenario) "A" fresh)) !! "A"
  = Some (zone_of window_A)
  /\ liquidity_zones
       (snd (identify_liquidity_pools (E := scenario) "A"
               (mkSelf (<["B" := zone_of flat_window]> ∅)))) !! "B"
     = Some (zone_of flat_window).
Proof.
  destruct (identify_twice (E := scenario) "A" fresh) as (_ & H & _).
  destruct (identify_twice (E := scenario) "A"
              (mkSelf (<["B" := zone_of flat_window]> ∅))) as (_ & _ & H').
  split; [apply H; reflexivity |].
  rewrite (H' "B"%string); [reflexivity | discriminate].
Defined.

(** ** Reported symbols *)

Lemma scan_market_cache_at `{E : Externals} (tickers : list string)
    (self : StopHunterVS) (t : string) (intraday data : DataFrame) :
  t ∈ tickers ->
  get_data t "1d" "5m" = Some intraday ->
  get_data t "20d" "1d" = Some data ->
  liquidity_zones (snd (scan_market tickers self)) !! t = Some (zone_of data).
Proof.
  intros Hin Hi Hd. unfold scan_market. rewrite cache_after_scan_loop.
  destruct (decide (t ∈ tickers)); [| contradiction].
  unfold refreshed. now rewrite Hi, Hd.
Qed.

(** X13.  Every symbol a scan reports comes with one or two signals, and the
    cache the scan leaves holds the zone of that symbol (the zone its
    signals were measured against), so that a chart of a reported symbol
    always finds its zone. *)
Theorem reported_symbols_have_zones `{E : Externals} (tickers : list string)
    (self self' : StopHunterVS) (results : gmap string (list Signal))
    (t : string) (signals : list Signal) :
  scan_market tickers self = (Ok results, self') ->
  results !! t = Some signals ->
  t ∈ tickers
  /\ (1 <= length signals <= 2)%nat
  /\ exists data,
       get_data t "20d" "1d" = Some data
       /\ liquidity_zones self' !! t = Some (zone_of data).
Proof.
  intros Hrun Hl.
  destruct (scan_lookup tickers self) as (r & s & Hr & Hlook).
  rewrite Hrun in Hr. inversion Hr; subst r s. clear Hr.
  rewrite Hlook in Hl. unfold reported in Hl.
  destruct (decide (t ∈ tickers)) as [Hin | _]; [| discriminate].
  destruct (signals_of t) as [| s0 l0] eqn:Hs; [discriminate |].
  inversion Hl; subst signals. clear Hl.
  destruct (detect_signals_of t self) as (self1 & Hdet). rewrite Hs in Hdet.
  destruct (detect_signal_inv t self self1 (s0 :: l0) s0 Hdet
              ltac:(apply list_elem_of_In; now left))
    as (intraday & data & current & down & up & Hi & Hd & Hlast & _ & _ & _).
  destruct (detect_run t self _ _ _ Hi Hd Hlast) as (d & u & _ & _ & Hrun').
  rewrite Hrun' in Hdet. inversion Hdet as [[Hsig Hst]].
  split; [exact Hin |]. split.
  { revert Hsig. by_traps; simpl; intros Hsig; try discriminate; lia. }
  exists data. split; [exact Hd |].
  pose proof (scan_market_cache_at tickers self t intraday data Hin Hi Hd) as Hc.
  now rewrite Hrun in Hc.
Qed.

Lemma reported_symbols_have_zones_scenario :
  exists data,
    get_data (E := scenario) "B" "20d" "1d" = Some data
    /\ liquidity_zones
         (snd (scan_market (E := scenario) ["A"; "B"]%string fresh)) !! "B"
       = Some (zone_of data).
Proof.
  destruct (scan_market (E := scenario) ["A"; "B"]%string fresh)
    as [[results | e] self'] eqn:Hrun; [| vm_compute in Hrun; discriminate].
  destruct (results !! "B"%string) as [signals |] eqn:Hl.
  - destruct (reported_symbols_have_zones (E := scenario) _ _ _ _ _ _ Hrun Hl)
      as (_ & _ & data & Hd & Hz).
    exists data. split; assumption.
  - exfalso. vm_compute in Hrun. inversion Hrun; subst. vm_compute in Hl.
    discriminate.
Defined.
